(** * SimpleHX711: a shallow embedding of the HX711 polling driver

    The development follows [SimpleHX711.h] and [SimpleHX711.cpp].  The
    object is a record of the private members; the Arduino primitives
    ([pinMode], [digitalRead], [digitalWrite], [millis]) act on a model of
    the board; every member function is a computation in a state-and-fault
    monad over the pair of both. *)

From Stdlib Require Import ZArith List Bool Lia.
From coqutil Require Import Z.bitblast.
Import ListNotations.
Local Open Scope Z_scope.

(** ** Fixed-width integers

    [uint8_t], [uint32_t] and [int32_t] values are integers of [Z]; the
    wrap-around of each C++ operation is written out.  Signed overflow is
    taken as two's-complement wrap-around, which is what the targets of the
    library (AVR and ARM cores) compute. *)

Definition wrap_u8 (z : Z) : Z := z mod 256.
Definition wrap_u32 (z : Z) : Z := z mod 2 ^ 32.
Definition wrap_i32 (z : Z) : Z := (z + 2 ^ 31) mod 2 ^ 32 - 2 ^ 31.

Definition in_u8 (z : Z) : Prop := 0 <= z < 256.
Definition in_u32 (z : Z) : Prop := 0 <= z < 2 ^ 32.
Definition in_i32 (z : Z) : Prop := - 2 ^ 31 <= z < 2 ^ 31.

Definition add32 (a b : Z) : Z := wrap_i32 (a + b).
Definition sub32 (a b : Z) : Z := wrap_i32 (a - b).
Definition mul32 (a b : Z) : Z := wrap_i32 (a * b).
(** C++ [/] on integers truncates toward zero: [Z.quot]. *)
Definition quot32 (a b : Z) : Z := wrap_i32 (Z.quot a b).
(** [/] by a divisor that may be zero: undefined behaviour is a fault. *)
Definition div32 (a b : Z) : option Z :=
  if b =? 0 then None else Some (quot32 a b).
Definition subu32 (a b : Z) : Z := wrap_u32 (a - b).

(** Byte [j] of the object representation of an [int32_t] (little-endian,
    as on every Arduino core): [reinterpret_cast<uint8_t*>(&x)[j]]. *)
Definition get_byte (j : Z) (x : Z) : Z :=
  Z.land (Z.shiftr (wrap_u32 x) (8 * j)) 255.
Definition set_byte (j : Z) (b : Z) (x : Z) : Z :=
  wrap_i32 (Z.lor (Z.land (wrap_u32 x) (Z.lnot (Z.shiftl 255 (8 * j))))
                  (Z.shiftl (wrap_u8 b) (8 * j))).

(** ** The class *)

Inductive gain : Type := gain32 | gain64 | gain128.
Inductive status : Type := init | valid | poweredDown | timedOut.

Definition status_eqb (a b : status) : bool :=
  match a, b with
  | init, init | valid, valid | poweredDown, poweredDown
  | timedOut, timedOut => true
  | _, _ => false
  end.

Record SimpleHX711 : Type := mkHX {
  _pinClk : Z;
  _pinData : Z;
  _gain : gain;
  _tare : Z;
  _alpha : Z;
  _timestamp : Z;
  _raw : Z;
  _smoothedRaw : Z;
  _adjuster : Z;
  _conversionStartTime : Z;
  _status : status;
  _readCount : Z;
  _readsUntilValid : Z
}.

(** Assignments to one member. *)
Definition set_gain (v : gain) (o : SimpleHX711) : SimpleHX711 :=
  mkHX (_pinClk o) (_pinData o) v (_tare o) (_alpha o) (_timestamp o)
       (_raw o) (_smoothedRaw o) (_adjuster o) (_conversionStartTime o)
       (_status o) (_readCount o) (_readsUntilValid o).
Definition set_tare (v : Z) (o : SimpleHX711) : SimpleHX711 :=
  mkHX (_pinClk o) (_pinData o) (_gain o) v (_alpha o) (_timestamp o)
       (_raw o) (_smoothedRaw o) (_adjuster o) (_conversionStartTime o)
       (_status o) (_readCount o) (_readsUntilValid o).
Definition set_alpha (v : Z) (o : SimpleHX711) : SimpleHX711 :=
  mkHX (_pinClk o) (_pinData o) (_gain o) (_tare o) v (_timestamp o)
       (_raw o) (_smoothedRaw o) (_adjuster o) (_conversionStartTime o)
       (_status o) (_readCount o) (_readsUntilValid o).
Definition set_timestamp (v : Z) (o : SimpleHX711) : SimpleHX711 :=
  mkHX (_pinClk o) (_pinData o) (_gain o) (_tare o) (_alpha o) v
       (_raw o) (_smoothedRaw o) (_adjuster o) (_conversionStartTime o)
       (_status o) (_readCount o) (_readsUntilValid o).
Definition set_raw (v : Z) (o : SimpleHX711) : SimpleHX711 :=
  mkHX (_pinClk o) (_pinData o) (_gain o) (_tare o) (_alpha o) (_timestamp o)
       v (_smoothedRaw o) (_adjuster o) (_conversionStartTime o)
       (_status o) (_readCount o) (_readsUntilValid o).
Definition set_smoothedRaw (v : Z) (o : SimpleHX711) : SimpleHX711 :=
  mkHX (_pinClk o) (_pinData o) (_gain o) (_tare o) (_alpha o) (_timestamp o)
       (_raw o) v (_adjuster o) (_conversionStartTime o)
       (_status o) (_readCount o) (_readsUntilValid o).
Definition set_adjuster (v : Z) (o : SimpleHX711) : SimpleHX711 :=
  mkHX (_pinClk o) (_pinData o) (_gain o) (_tare o) (_alpha o) (_timestamp o)
       (_raw o) (_smoothedRaw o) v (_conversionStartTime o)
       (_status o) (_readCount o) (_readsUntilValid o).
Definition set_conversionStartTime (v : Z) (o : SimpleHX711) : SimpleHX711 :=
  mkHX (_pinClk o) (_pinData o) (_gain o) (_tare o) (_alpha o) (_timestamp o)
       (_raw o) (_smoothedRaw o) (_adjuster o) v
       (_status o) (_readCount o) (_readsUntilValid o).
Definition set_status (v : status) (o : SimpleHX711) : SimpleHX711 :=
  mkHX (_pinClk o) (_pinData o) (_gain o) (_tare o) (_alpha o) (_timestamp o)
       (_raw o) (_smoothedRaw o) (_adjuster o) (_conversionStartTime o)
       v (_readCount o) (_readsUntilValid o).
Definition set_readCount (v : Z) (o : SimpleHX711) : SimpleHX711 :=
  mkHX (_pinClk o) (_pinData o) (_gain o) (_tare o) (_alpha o) (_timestamp o)
       (_raw o) (_smoothedRaw o) (_adjuster o) (_conversionStartTime o)
       (_status o) v (_readsUntilValid o).
Definition set_readsUntilValid (v : Z) (o : SimpleHX711) : SimpleHX711 :=
  mkHX (_pinClk o) (_pinData o) (_gain o) (_tare o) (_alpha o) (_timestamp o)
       (_raw o) (_smoothedRaw o) (_adjuster o) (_conversionStartTime o)
       (_status o) (_readCount o) v.

(** ** The board

    The levels of the lines and the millisecond clock are inputs: [lines t p]
    is the level [digitalRead] finds on pin [p] when it is the [t]-th
    primitive the sketch executes, [clock t] what [millis] returns then.
    Nothing ties the level read on a pin to what the sketch wrote to it, so
    every behaviour of the hardware is one of these boards.  [history] keeps
    the pin configurations and writes, latest first. *)

Inductive pin_mode : Type := INPUT | OUTPUT | INPUT_PULLUP.

Inductive output : Type :=
| PinMode (p : Z) (md : pin_mode)
| DigitalWrite (p : Z) (level : bool).

Definition HIGH : bool := true.
Definition LOW : bool := false.

Record Board : Type := mkBoard {
  lines : nat -> Z -> bool;
  clock : nat -> Z;
  elapsed : nat;
  history : list output
}.

Definition tick (b : Board) : Board :=
  mkBoard (lines b) (clock b) (S (elapsed b)) (history b).
Definition emit (e : output) (b : Board) : Board :=
  mkBoard (lines b) (clock b) (S (elapsed b)) (e :: history b).

Record Machine : Type := mkMachine {
  self : SimpleHX711;
  board : Board
}.

(** ** State-and-fault monad *)

Definition M (A : Type) : Type := Machine -> option (A * Machine).

Definition ret {A} (a : A) : M A := fun m => Some (a, m).
Definition bind {A B} (c : M A) (k : A -> M B) : M B :=
  fun m => match c m with
           | Some (a, m') => k a m'
           | None => None
           end.
Definition fault {A} : M A := fun _ => None.

Notation "x <- c ;; k" := (bind c (fun x => k))
  (at level 61, c at next level, right associativity).
Notation "c ;; k" := (bind c (fun _ => k))
  (at level 61, right associativity).

Definition member {A} (f : SimpleHX711 -> A) : M A :=
  fun m => Some (f (self m), m).
Definition assign (f : SimpleHX711 -> SimpleHX711) : M unit :=
  fun m => Some (tt, mkMachine (f (self m)) (board m)).
Definition checked {A} (x : option A) : M A :=
  match x with Some a => ret a | None => fault end.

Definition pinMode (p : Z) (md : pin_mode) : M unit :=
  fun m => Some (tt, mkMachine (self m) (emit (PinMode p md) (board m))).
Definition digitalRead (p : Z) : M bool :=
  fun m => Some (lines (board m) (elapsed (board m)) p,
                 mkMachine (self m) (tick (board m))).
Definition digitalWrite (p : Z) (level : bool) : M unit :=
  fun m => Some (tt, mkMachine (self m) (emit (DigitalWrite p level) (board m))).
Definition millis : M Z :=
  fun m => Some (wrap_u32 (clock (board m) (elapsed (board m))),
                 mkMachine (self m) (tick (board m))).

(** ** Member functions *)

(** The constructor (SimpleHX711.cpp, lines 16-33), run on a board. *)
Definition SimpleHX711_new (pinClk pinData readsUntilValid : Z) (g : gain)
    (b : Board) : Machine :=
  let b1 := emit (PinMode pinData INPUT_PULLUP) b in
  let b2 := emit (PinMode pinClk OUTPUT) b1 in
  let now := wrap_u32 (clock b2 (elapsed b2)) in
  mkMachine
    (mkHX pinClk pinData g 0 200 0 0 0 256 now init 0 readsUntilValid)
    (tick b2).

(** One pass of the inner loop body (lines 83-87): a clock pulse during
    which byte [j] of [_raw] is shifted left and receives the data bit. *)
Definition shift_bit (j : Z) : M unit :=
  clk <- member _pinClk ;;
  digitalWrite clk HIGH ;;
  old <- member (fun o => get_byte j (_raw o)) ;;
  dat <- member _pinData ;;
  d <- digitalRead dat ;;
  assign (fun o => set_raw (set_byte j (Z.shiftl old 1 + Z.b2z d) (_raw o)) o) ;;
  digitalWrite clk LOW.

(** [for (i = 0; i < 8; ++i)], with [n] passes left. *)
Fixpoint for_i (n : nat) (j : Z) : M unit :=
  match n with
  | O => ret tt
  | S n' => shift_bit j ;; for_i n' j
  end.

(** [for (j = 3; j > 0; --j)], entered with [j]. *)
Fixpoint for_j (j : nat) : M unit :=
  match j with
  | O => ret tt
  | S j' => for_i 8 (Z.of_nat j) ;; for_j j'
  end.

Definition clock_pulse : M unit :=
  clk <- member _pinClk ;;
  digitalWrite clk HIGH ;;
  digitalWrite clk LOW.

(** The [switch (_gain)] of lines 93-120; the cases fall through. *)
Definition case_default : M unit := clock_pulse.
Definition case_gain32 : M unit := clock_pulse ;; case_default.
Definition case_gain64 : M unit := clock_pulse ;; case_gain32.
Definition switch_gain : M unit :=
  g <- member _gain ;;
  match g with
  | gain64 => case_gain64
  | gain32 => case_gain32
  | gain128 => case_default
  end.

(** [bool SimpleHX711::read()] (lines 39-147). *)
Definition read : M bool :=
  clk <- member _pinClk ;;
  c <- digitalRead clk ;;
  if c then
    assign (set_status poweredDown) ;;
    ret true
  else
    dat <- member _pinData ;;
    d <- digitalRead dat ;;
    if d then
      now <- millis ;;
      start <- member _conversionStartTime ;;
      if 500 <=? subu32 now start then
        assign (set_status timedOut) ;;
        ret true
      else ret false
    else
      st <- member _status ;;
      (if status_eqb st timedOut then
         assign (set_status init) ;;
         assign (set_readCount 0)
       else ret tt) ;;
      start <- member _conversionStartTime ;;
      assign (set_timestamp start) ;;
      for_j 3 ;;
      switch_gain ;;
      now <- millis ;;
      assign (set_conversionStartTime now) ;;
      rc <- member _readCount ;;
      ruv <- member _readsUntilValid ;;
      if rc <? ruv then
        assign (set_readCount (wrap_u8 (rc + 1))) ;;
        rc' <- member _readCount ;;
        ruv' <- member _readsUntilValid ;;
        if rc' <? ruv' then ret false
        else
          assign (fun o => set_smoothedRaw (_raw o) o) ;;
          assign (set_status valid) ;;
          ret true
      else
        assign (fun o =>
          set_smoothedRaw
            (add32 (_smoothedRaw o)
               (mul32 (quot32 (sub32 (_raw o) (_smoothedRaw o)) 256)
                      (_alpha o))) o) ;;
        assign (set_status valid) ;;
        ret true.

Definition getStatus : M status := member _status.

Definition setGain (g : gain) : M unit :=
  assign (set_gain g) ;;
  assign (set_status init) ;;
  assign (set_readCount 0).

Definition getGain : M gain := member _gain.

Definition setAlpha (alpha : Z) : M unit := assign (set_alpha alpha).
Definition getAlpha : M Z := member _alpha.
Definition getTimestamp : M Z := member _timestamp.

Definition getRaw (smoothed : bool) : M Z :=
  member (fun o => if smoothed then _smoothedRaw o else _raw o).

Definition tare (smoothed : bool) : M unit :=
  assign (fun o => set_tare (if smoothed then _smoothedRaw o else _raw o) o).

Definition setTare (t : Z) : M unit := assign (set_tare t).
Definition getTare : M Z := member _tare.

Definition getRawMinusTare (smoothed : bool) : M Z :=
  member (fun o => if smoothed then sub32 (_smoothedRaw o) (_tare o)
                   else sub32 (_raw o) (_tare o)).

Definition adjustTo (value : Z) (smoothed : bool) : M unit :=
  let value := if value =? 0 then 1 else value in
  q <- (if smoothed then
          o <- member id ;;
          checked (div32 (sub32 (_smoothedRaw o) (_tare o)) value)
        else
          o <- member id ;;
          checked (div32 (sub32 (_raw o) (_tare o)) value)) ;;
  assign (set_adjuster q).

Definition getAdjuster : M Z := member _adjuster.
Definition setAdjuster (adjuster : Z) : M unit := assign (set_adjuster adjuster).

Definition getAdjusted (smoothed : bool) : M Z :=
  o <- member id ;;
  if smoothed then
    checked (div32 (sub32 (_smoothedRaw o) (_tare o)) (_adjuster o))
  else
    checked (div32 (sub32 (_raw o) (_tare o)) (_adjuster o)).

Definition powerDown : M unit :=
  clk <- member _pinClk ;;
  digitalWrite clk HIGH.

Definition powerUp : M unit :=
  clk <- member _pinClk ;;
  digitalWrite clk LOW ;;
  assign (set_status init) ;;
  assign (set_readCount 0) ;;
  now <- millis ;;
  assign (set_conversionStartTime now).

Definition setReadsUntilValid (readsUntilValid : Z) : M unit :=
  assign (set_readsUntilValid readsUntilValid).
Definition getReadsUntilValid : M Z := member _readsUntilValid.

(** ** Sequences of calls *)

(** A call of a public member function with its arguments. *)
Inductive call : Type :=
| Read
| GetStatus
| SetGain (g : gain)
| GetGain
| SetAlpha (alpha : Z)
| GetAlpha
| GetTimestamp
| GetRaw (smoothed : bool)
| Tare (smoothed : bool)
| SetTare (t : Z)
| GetTare
| GetRawMinusTare (smoothed : bool)
| AdjustTo (value : Z) (smoothed : bool)
| GetAdjuster
| SetAdjuster (adjuster : Z)
| GetAdjusted (smoothed : bool)
| PowerDown
| PowerUp
| SetReadsUntilValid (readsUntilValid : Z)
| GetReadsUntilValid.

Definition discard {A} (c : M A) : M unit := c ;; ret tt.

Definition perform (c : call) : M unit :=
  match c with
  | Read => discard read
  | GetStatus => discard getStatus
  | SetGain g => setGain g
  | GetGain => discard getGain
  | SetAlpha a => setAlpha a
  | GetAlpha => discard getAlpha
  | GetTimestamp => discard getTimestamp
  | GetRaw s => discard (getRaw s)
  | Tare s => tare s
  | SetTare t => setTare t
  | GetTare => discard getTare
  | GetRawMinusTare s => discard (getRawMinusTare s)
  | AdjustTo v s => adjustTo v s
  | GetAdjuster => discard getAdjuster
  | SetAdjuster a => setAdjuster a
  | GetAdjusted s => discard (getAdjusted s)
  | PowerDown => powerDown
  | PowerUp => powerUp
  | SetReadsUntilValid n => setReadsUntilValid n
  | GetReadsUntilValid => discard getReadsUntilValid
  end.

Fixpoint perform_all (cs : list call) : M unit :=
  match cs with
  | [] => ret tt
  | c :: cs' => perform c ;; perform_all cs'
  end.

(** ** What a poll sees and what it leaves *)

(** The levels the next [read] finds on the clock line (its first
    primitive) and on the data line (its second). *)
Definition clk_level (m : Machine) : bool :=
  lines (board m) (elapsed (board m)) (_pinClk (self m)).
Definition data_level (m : Machine) : bool :=
  lines (board m) (S (elapsed (board m))) (_pinData (self m)).
(** The chip is powered and a conversion is ready: [read] does a transfer. *)
Definition ready (m : Machine) : bool :=
  negb (clk_level m) && negb (data_level m).

(** The object after lines 69-72. *)
Definition recovered (o : SimpleHX711) : SimpleHX711 :=
  if status_eqb (_status o) timedOut
  then set_readCount 0 (set_status init o) else o.

(** The right-hand side of line 142. *)
Definition smoothing (raw smoothedRaw alpha : Z) : Z :=
  add32 smoothedRaw (mul32 (quot32 (sub32 raw smoothedRaw) 256) alpha).

(** Result and object after lines 129-146, as a function of the object
    that reaches line 129. *)
Definition settled (o : SimpleHX711) : bool * SimpleHX711 :=
  if _readCount o <? _readsUntilValid o then
    let o1 := set_readCount (wrap_u8 (_readCount o + 1)) o in
    if _readCount o1 <? _readsUntilValid o1 then (false, o1)
    else (true, set_status valid (set_smoothedRaw (_raw o1) o1))
  else
    (true,
     set_status valid
       (set_smoothedRaw (smoothing (_raw o) (_smoothedRaw o) (_alpha o)) o)).

(** The reading a calibration function works on, per its flag. *)
Definition reading (smoothed : bool) (o : SimpleHX711) : Z :=
  if smoothed then _smoothedRaw o else _raw o.

(** ** Runs of calls and what they preserve *)

(** Results of a run of [n] polls, and the number of them that did a
    transfer. *)
Fixpoint polls (n : nat) (m : Machine) : option Machine :=
  match n with
  | O => Some m
  | S n' => match read m with
            | Some (_, m') => polls n' m'
            | None => None
            end
  end.

Fixpoint transfers (n : nat) (m : Machine) : nat :=
  match n with
  | O => O
  | S n' => match read m with
            | Some (_, m') =>
                ((if ready m then 1 else 0) + transfers n' m')%nat
            | None => O
            end
  end.

(** [read] finds the chip ready on each of the next [n] polls. *)
Fixpoint ready_for (n : nat) (m : Machine) : bool :=
  match n with
  | O => true
  | S n' => ready m &&
            match read m with
            | Some (_, m') => ready_for n' m'
            | None => false
            end
  end.

(** Along the calls [cs] started in [m], no [setReadsUntilValid] is given
    a threshold below the counter of the moment. *)
Fixpoint threshold_respected (cs : list call) (m : Machine) : bool :=
  match cs with
  | [] => true
  | c :: cs' =>
      match c with
      | SetReadsUntilValid n => _readCount (self m) <=? n
      | _ => true
      end
      && match perform c m with
         | Some (_, m') => threshold_respected cs' m'
         | None => true
         end
  end.

(** The members hold values of their types. *)
Record well_typed (o : SimpleHX711) : Prop := {
  wt_pinClk : in_u8 (_pinClk o);
  wt_pinData : in_u8 (_pinData o);
  wt_tare : in_i32 (_tare o);
  wt_alpha : in_u8 (_alpha o);
  wt_timestamp : in_u32 (_timestamp o);
  wt_raw : in_i32 (_raw o);
  wt_smoothedRaw : in_i32 (_smoothedRaw o);
  wt_adjuster : in_i32 (_adjuster o);
  wt_conversionStartTime : in_u32 (_conversionStartTime o);
  wt_readCount : in_u8 (_readCount o);
  wt_readsUntilValid : in_u8 (_readsUntilValid o)
}.

(** The settling counter is within its threshold. *)
Definition counter_bounded (o : SimpleHX711) : Prop :=
  0 <= _readCount o <= _readsUntilValid o.

(** With [k] transfers done since the counter was last reset, either the
    status is not valid and the counter, still short of the threshold,
    counts at most these transfers, or the transfers reached the
    threshold. *)
Definition still_settling (k : Z) (o : SimpleHX711) : Prop :=
  (_status o <> valid /\ 0 <= _readCount o <= k
   /\ _readCount o < _readsUntilValid o)
  \/ _readsUntilValid o <= k.

(** ** Boards and machines for the examples *)

(** Both lines stay low and the clock advances by one millisecond per
    primitive. *)
Definition quiet_board : Board :=
  mkBoard (fun _ _ => false) (fun t => Z.of_nat t) 0 [].

(** A board that is quiet except that the [read] started at time [e] finds
    [bits] (most significant first) on the data line, one per clock pulse. *)
Definition sample_board (e : nat) (bits : list bool) : Board :=
  mkBoard
    (fun t _ =>
       if (Nat.leb (e + 3) t && Nat.eqb (Nat.modulo (t - (e + 3)) 3) 0)%bool
       then nth (Nat.div (t - (e + 3)) 3) bits false
       else false)
    (fun t => Z.of_nat t) 0 [].

(** The 24-bit sample [10]: [_raw] becomes [10 * 256 = 2560]. *)
Definition sample_10 : list bool :=
  repeat false 20 ++ [true; false; true; false].

(** The samples [0xFFFFFF] (-1) and [0x800000] (the most negative one). *)
Definition sample_ones : list bool := repeat true 24.
Definition sample_min : list bool := true :: repeat false 23.

(** A board whose clock line reads high: the chip is powered down. *)
Definition asleep_board : Board :=
  mkBoard (fun _ _ => true) (fun t => Z.of_nat t) 0 [].

(** The chip delivers one conversion to the instance on pins 2 and 3 (the
    first [read], primitives 3 to 79) and then stops answering: from then
    on the data line (pin 3) shows the pull-up.  The clock advances by a
    second per primitive. *)
Definition stalled_board : Board :=
  mkBoard (fun t p => (p =? 3) && Nat.leb 80 t)
          (fun t => 1000 * Z.of_nat t) 0 [].

(** The data line is released by the chip from the sixth primitive on. *)
Definition replugged_board : Board :=
  mkBoard (fun t p => (p =? 3) && Nat.ltb t 6)
          (fun t => 1000 * Z.of_nat t) 0 [].

(** The machine after the first [read] of a fresh instance (pins 2 and 3,
    readsUntilValid = 3, gain 128) on board [b]. *)
Definition after_first_read (b : Board) : Machine :=
  match read (SimpleHX711_new 2 3 3 gain128 b) with
  | Some (_, m) => m
  | None => SimpleHX711_new 2 3 3 gain128 b
  end.

(** A machine in steady state on which the next [read] acquires
    [_raw = 2560] while [_smoothedRaw = 0] and [_alpha = 200]. *)
Definition steady_machine : Machine :=
  SimpleHX711_new 2 3 0 gain128 (sample_board 3 sample_10).

(** [steady_machine] after its poll: [_raw = 2560], [_smoothedRaw = 2000],
    tare 0, adjuster 256. *)
Definition loaded_machine : Machine :=
  match read steady_machine with
  | Some (_, m) => m
  | None => steady_machine
  end.

(** A session in which the threshold is lowered, but not below the
    counter. *)
Definition busy_session : list call :=
  [Read; SetGain gain64; Read; Read; SetReadsUntilValid 2;
   Read; Tare false; AdjustTo 0 true; PowerUp; Read].

Definition after_busy_session : Machine :=
  match perform_all busy_session (SimpleHX711_new 2 3 3 gain128 quiet_board)
  with
  | Some (_, m) => m
  | None => SimpleHX711_new 2 3 3 gain128 quiet_board
  end.

(** ** The transfer, bit by bit *)

(** One pass of the inner loop on [_raw], given the level of the data
    line (the assignment of lines 84-86). *)
Definition shift_byte (j : Z) (level : bool) (raw : Z) : Z :=
  set_byte j (Z.shiftl (get_byte j raw) 1 + Z.b2z level) raw.

(** [_raw] after [n] passes of the inner loop on byte [j], the first of
    which samples the data line [dat] at primitive [t] ([ln] gives the
    levels); a pass takes three primitives. *)
Fixpoint raw_after_i (ln : nat -> Z -> bool) (dat : Z) (t n : nat) (j : Z)
    (raw : Z) : Z :=
  match n with
  | O => raw
  | S n' => raw_after_i ln dat (t + 3) n' j (shift_byte j (ln t dat) raw)
  end.

(** [_raw] after the outer loop entered with [j], the first pass sampling
    at primitive [t]. *)
Fixpoint raw_after_j (ln : nat -> Z -> bool) (dat : Z) (t j : nat) (raw : Z)
    : Z :=
  match j with
  | O => raw
  | S j' => raw_after_j ln dat (t + 24) j'
              (raw_after_i ln dat t 8 (Z.of_nat j) raw)
  end.

(** The number that [n] levels of the data line spell, the first one (at
    primitive [t]) most significant, the next ones three primitives apart,
    shifted in behind [acc]. *)
Fixpoint shifted_in (ln : nat -> Z -> bool) (dat : Z) (t n : nat) (acc : Z)
    : Z :=
  match n with
  | O => acc
  | S n' => shifted_in ln dat (t + 3) n' (2 * acc + Z.b2z (ln t dat))
  end.

(** The 24 bits that the chip presents to the [read] started on [m]: the
    first is sampled at the fourth primitive of the call. *)
Definition sample (m : Machine) : Z :=
  shifted_in (lines (board m)) (_pinData (self m))
    (elapsed (board m) + 3) 24 0.

(** A 24-bit pattern read as a two's-complement number. *)
Definition signed24 (s : Z) : Z := if s <? 2 ^ 23 then s else s - 2 ^ 24.

(** Clock pulses that the [switch] of lines 93-120 adds. *)
Definition extra_pulses (g : gain) : nat :=
  match g with
  | gain128 => 1
  | gain32 => 2
  | gain64 => 3
  end.

(** [n] pulses on the clock line as they appear in the history (latest
    first): each is a write of HIGH followed by a write of LOW. *)
Fixpoint pulse_train (clk : Z) (n : nat) : list output :=
  match n with
  | O => []
  | S n' => DigitalWrite clk LOW :: DigitalWrite clk HIGH :: pulse_train clk n'
  end.

(** The primitive at which the [read] started on [m] calls [millis] after
    its transfer (line 124). *)
Definition transfer_end (m : Machine) : nat :=
  elapsed (board m) + 74 + 2 * extra_pulses (_gain (self m)).

(** The object that reaches the settling gate (line 129) when the [read]
    started on [m] does a transfer, and the board it leaves. *)
Definition transferred (m : Machine) : SimpleHX711 :=
  set_conversionStartTime (wrap_u32 (clock (board m) (transfer_end m)))
    (set_raw (raw_after_j (lines (board m)) (_pinData (self m))
                (elapsed (board m) + 3) 3 (_raw (self m)))
       (set_timestamp (_conversionStartTime (self m))
          (recovered (self m)))).

Definition board_after_transfer (m : Machine) : Board :=
  mkBoard (lines (board m)) (clock (board m)) (S (transfer_end m))
    (pulse_train (_pinClk (self m)) (24 + extra_pulses (_gain (self m)))
     ++ history (board m)).

(** The clock passes [2^32] between the construction and the first poll,
    which finds the data line (pin 3) high. *)
Definition wrapping_board : Board :=
  mkBoard (fun _ p => p =? 3) (fun t => 2 ^ 32 - 1000 + 200 * Z.of_nat t) 0 [].

(** Result and status after each of [n] polls. *)
Fixpoint poll_results (n : nat) (m : Machine) : list (bool * status) :=
  match n with
  | O => []
  | S n' => match read m with
            | Some (res, m') => (res, _status (self m')) :: poll_results n' m'
            | None => []
            end
  end.

(** No call of [cs] changes the threshold. *)
Definition threshold_untouched (cs : list call) : bool :=
  forallb (fun c => match c with
                    | SetReadsUntilValid _ => false
                    | _ => true
                    end) cs.

(** The status is valid only with the counter at the threshold. *)
Definition valid_is_settled (o : SimpleHX711) : Prop :=
  0 <= _readCount o <= _readsUntilValid o /\
  (_status o = valid -> _readCount o = _readsUntilValid o).

(** A session without threshold changes. *)
Definition plain_session : list call :=
  [Read; AdjustTo 10 false; GetAdjusted false; Tare true; SetGain gain32;
   PowerDown; PowerUp; GetRaw false].

Definition after_plain_session : Machine :=
  match perform_all plain_session
          (SimpleHX711_new 2 3 3 gain128 (sample_board 3 sample_10))
  with
  | Some (_, m) => m
  | None => SimpleHX711_new 2 3 3 gain128 (sample_board 3 sample_10)
  end.

(** A session that ends settled. *)
Definition settled_session : list call :=
  [Read; SetGain gain64; Read; Read; Read; Tare true; GetStatus].

Definition after_settled_session : Machine :=
  match perform_all settled_session
          (SimpleHX711_new 2 3 3 gain128 quiet_board)
  with
  | Some (_, m) => m
  | None => SimpleHX711_new 2 3 3 gain128 quiet_board
  end.

(** * Properties *)

(** ** Arithmetic *)

Lemma wrap_i32_range z : in_i32 (wrap_i32 z).
Proof.
  unfold in_i32, wrap_i32.
  pose proof (Z.mod_pos_bound (z + 2 ^ 31) (2 ^ 32) ltac:(lia)). lia.
Qed.

Lemma wrap_i32_id z : in_i32 z -> wrap_i32 z = z.
Proof.
  unfold in_i32, wrap_i32. intros H.
  rewrite Z.mod_small by lia. lia.
Qed.

Lemma wrap_u32_range z : in_u32 (wrap_u32 z).
Proof. unfold in_u32, wrap_u32. apply Z.mod_pos_bound. lia. Qed.

Lemma wrap_u8_range z : in_u8 (wrap_u8 z).
Proof. unfold in_u8, wrap_u8. apply Z.mod_pos_bound. lia. Qed.

Lemma wrap_u8_id z : in_u8 z -> wrap_u8 z = z.
Proof. unfold in_u8, wrap_u8. intros H. apply Z.mod_small. lia. Qed.

Lemma wrap_u8_le z : 0 <= z -> 0 <= wrap_u8 z <= z.
Proof.
  intros H. unfold wrap_u8. split.
  - apply Z.mod_pos_bound. lia.
  - apply Z.mod_le; lia.
Qed.

Lemma set_byte_range j b x : in_i32 (set_byte j b x).
Proof. apply wrap_i32_range. Qed.

Lemma quot_256_range z : in_i32 z -> - 2 ^ 23 <= Z.quot z 256 < 2 ^ 23.
Proof.
  unfold in_i32. intros H.
  destruct (Z_le_gt_dec 0 z) as [Hz | Hz].
  - rewrite Z.quot_div_nonneg by lia. split.
    + pose proof (Z.div_pos z 256). lia.
    + apply Z.div_lt_upper_bound; lia.
  - replace z with (- (- z)) by lia.
    rewrite Z.quot_opp_l by lia.
    rewrite Z.quot_div_nonneg by lia.
    assert (0 <= (- z) / 256 <= 2 ^ 23).
    { split. apply Z.div_pos; lia.
      apply Z.div_le_upper_bound; lia. }
    lia.
Qed.

(** Without overflow of the final sum, line 142 computes the formula over
    the integers: the subtraction wraps, the quotient and the product of
    in-range operands never do. *)
Lemma smoothing_exact raw sm alpha :
  in_i32 (raw - sm) -> in_u8 alpha ->
  in_i32 (sm + Z.quot (raw - sm) 256 * alpha) ->
  smoothing raw sm alpha = sm + Z.quot (raw - sm) 256 * alpha.
Proof.
  intros Hd Ha Hs. unfold smoothing, add32, mul32, quot32, sub32.
  rewrite (wrap_i32_id (raw - sm)) by assumption.
  pose proof (quot_256_range _ Hd) as Hq.
  rewrite (wrap_i32_id (Z.quot (raw - sm) 256)) by (unfold in_i32; lia).
  rewrite (wrap_i32_id (Z.quot (raw - sm) 256 * alpha)).
  - apply wrap_i32_id; assumption.
  - unfold in_i32, in_u8 in *. nia.
Qed.

(** ** Stepping through a computation *)

Lemma bind_Some {A B} (c : M A) (k : A -> M B) m a m' :
  c m = Some (a, m') -> bind c k m = k a m'.
Proof. intros E. unfold bind. now rewrite E. Qed.

Lemma bind_member {A B} (f : SimpleHX711 -> A) (k : A -> M B) m :
  bind (member f) k m = k (f (self m)) m.
Proof. reflexivity. Qed.

Lemma bind_assign {B} f (k : unit -> M B) m :
  bind (assign f) k m = k tt (mkMachine (f (self m)) (board m)).
Proof. reflexivity. Qed.

Lemma bind_digitalRead {B} p (k : bool -> M B) m :
  bind (digitalRead p) k m =
  k (lines (board m) (elapsed (board m)) p)
    (mkMachine (self m) (tick (board m))).
Proof. reflexivity. Qed.

Lemma bind_digitalWrite {B} p l (k : unit -> M B) m :
  bind (digitalWrite p l) k m =
  k tt (mkMachine (self m) (emit (DigitalWrite p l) (board m))).
Proof. reflexivity. Qed.

Lemma bind_millis {B} (k : Z -> M B) m :
  bind millis k m =
  k (wrap_u32 (clock (board m) (elapsed (board m))))
    (mkMachine (self m) (tick (board m))).
Proof. reflexivity. Qed.

Lemma bind_ret {A B} (a : A) (k : A -> M B) m : bind (ret a) k m = k a m.
Proof. reflexivity. Qed.

(** One primitive step of a computation applied to a machine. *)
Ltac step :=
  first [ rewrite bind_member | rewrite bind_assign | rewrite bind_digitalRead
        | rewrite bind_digitalWrite | rewrite bind_millis | rewrite bind_ret ];
  cbn [self board].
Ltac steps := repeat step.

(** Members of an object after assignments. *)
Ltac members :=
  cbn [self board _pinClk _pinData _gain _tare _alpha _timestamp _raw
       _smoothedRaw _adjuster _conversionStartTime _status _readCount
       _readsUntilValid set_gain set_tare set_alpha set_timestamp set_raw
       set_smoothedRaw set_adjuster set_conversionStartTime set_status
       set_readCount set_readsUntilValid].

(** ** The transfer touches [_raw] only *)

Lemma set_raw_set_raw r1 r2 o : set_raw r2 (set_raw r1 o) = set_raw r2 o.
Proof. reflexivity. Qed.

Lemma set_raw_same o : set_raw (_raw o) o = o.
Proof. now destruct o. Qed.

Lemma shift_bit_frame j m :
  exists r b',
    shift_bit j m = Some (tt, mkMachine (set_raw r (self m)) b') /\ in_i32 r.
Proof.
  eexists _, _. split.
  - unfold shift_bit, bind, member, digitalWrite, digitalRead, assign.
    cbn [self board]. reflexivity.
  - apply set_byte_range.
Qed.

Lemma for_i_frame n j m :
  exists r b',
    for_i n j m = Some (tt, mkMachine (set_raw r (self m)) b')
    /\ (n <> O -> in_i32 r).
Proof.
  revert m. induction n as [| n IH]; intros m.
  - exists (_raw (self m)), (board m). split; [| easy].
    cbn. rewrite set_raw_same. now destruct m.
  - destruct (shift_bit_frame j m) as (r1 & b1 & E1 & R1).
    destruct (IH (mkMachine (set_raw r1 (self m)) b1)) as (r2 & b2 & E2 & R2).
    exists r2, b2. split.
    + cbn [for_i]. rewrite (bind_Some _ _ _ _ _ E1). exact E2.
    + intros _. destruct n as [| n'].
      * assert (r2 = r1) as -> by (cbv in E2; congruence).
        exact R1.
      * apply R2. discriminate.
Qed.

Lemma for_j_frame n m :
  exists r b',
    for_j n m = Some (tt, mkMachine (set_raw r (self m)) b')
    /\ (n <> O -> in_i32 r).
Proof.
  revert m. induction n as [| n IH]; intros m.
  - exists (_raw (self m)), (board m). split; [| easy].
    cbn. rewrite set_raw_same. now destruct m.
  - destruct (for_i_frame 8 (Z.of_nat (S n)) m) as (r1 & b1 & E1 & R1).
    destruct (IH (mkMachine (set_raw r1 (self m)) b1)) as (r2 & b2 & E2 & R2).
    exists r2, b2. split.
    + cbn [for_j]. rewrite (bind_Some _ _ _ _ _ E1). exact E2.
    + intros _. destruct n as [| n'].
      * assert (r2 = r1) as -> by (cbv in E2; congruence).
        apply R1. discriminate.
      * apply R2. discriminate.
Qed.

Lemma switch_gain_frame m :
  exists b', switch_gain m = Some (tt, mkMachine (self m) b').
Proof.
  unfold switch_gain, bind, member.
  destruct (_gain (self m)); eexists; reflexivity.
Qed.

(** ** The three ways through [read] *)

Lemma read_poweredDown m :
  clk_level m = true ->
  read m = Some (true, mkMachine (set_status poweredDown (self m))
                                 (tick (board m))).
Proof.
  unfold clk_level. intros H.
  unfold read. do 2 step. rewrite H. steps. reflexivity.
Qed.

Lemma read_busy m :
  clk_level m = false -> data_level m = true ->
  let now := wrap_u32 (clock (board m) (S (S (elapsed (board m))))) in
  let b' := tick (tick (tick (board m))) in
  read m =
    if 500 <=? subu32 now (_conversionStartTime (self m))
    then Some (true, mkMachine (set_status timedOut (self m)) b')
    else Some (false, mkMachine (self m) b').
Proof.
  unfold clk_level, data_level. intros Hc Hd.
  unfold read. do 2 step. rewrite Hc. do 2 step.
  cbn [tick elapsed lines]. rewrite Hd. do 2 step.
  cbn [tick elapsed lines clock].
  destruct (500 <=? _); steps; reflexivity.
Qed.

Lemma read_ready m :
  ready m = true ->
  exists r now b',
    in_i32 r /\ in_u32 now /\
    read m =
      Some (fst (settled (set_conversionStartTime now
                   (set_raw r (set_timestamp (_conversionStartTime (self m))
                      (recovered (self m)))))),
            mkMachine
              (snd (settled (set_conversionStartTime now
                      (set_raw r (set_timestamp (_conversionStartTime (self m))
                         (recovered (self m)))))))
              b').
Proof.
  unfold ready, clk_level, data_level. intros H.
  apply andb_true_iff in H as [Hc Hd].
  apply negb_true_iff in Hc, Hd.
  unfold read. do 2 step. rewrite Hc. do 2 step.
  cbn [tick elapsed lines]. rewrite Hd. step.
  match goal with
  | |- context [mkMachine (self m) ?b] => set (b1 := b)
  end.
  set (o1 := recovered (self m)).
  assert (E1 : (if status_eqb (_status (self m)) timedOut
                then assign (set_status init) ;; assign (set_readCount 0)
                else ret tt) (mkMachine (self m) b1)
               = Some (tt, mkMachine o1 b1)).
  { subst o1. unfold recovered.
    destruct (status_eqb (_status (self m)) timedOut); reflexivity. }
  rewrite (bind_Some _ _ _ _ _ E1). do 2 step.
  assert (Eo1 : _conversionStartTime o1 = _conversionStartTime (self m)).
  { subst o1. unfold recovered.
    destruct (status_eqb _ _); reflexivity. }
  rewrite Eo1.
  set (o2 := set_timestamp _ o1).
  destruct (for_j_frame 3 (mkMachine o2 b1)) as (r & b3 & E3 & R3).
  rewrite (bind_Some _ _ _ _ _ E3). cbn [self].
  destruct (switch_gain_frame (mkMachine (set_raw r o2) b3)) as (b4 & E4).
  rewrite (bind_Some _ _ _ _ _ E4). cbn [self].
  exists r, (wrap_u32 (clock b4 (elapsed b4))), (tick b4).
  split; [apply R3; discriminate |].
  split; [apply wrap_u32_range |].
  do 4 step.
  set (o5 := set_conversionStartTime _ _).
  unfold settled.
  destruct (_readCount o5 <? _readsUntilValid o5) eqn:E5.
  - do 3 step. cbn [_readCount _readsUntilValid set_readCount].
    destruct (wrap_u8 (_readCount o5 + 1) <? _readsUntilValid o5);
      steps; reflexivity.
  - steps. reflexivity.
Qed.

Lemma read_total m : exists res m', read m = Some (res, m').
Proof.
  destruct (clk_level m) eqn:Hc.
  - rewrite (read_poweredDown m Hc). eauto.
  - destruct (data_level m) eqn:Hd.
    + rewrite (read_busy m Hc Hd). cbv zeta.
      destruct (500 <=? _); eauto.
    + assert (H : ready m = true) by (unfold ready; now rewrite Hc, Hd).
      destruct (read_ready m H) as (r & now & b' & _ & _ & E).
      rewrite E. eauto.
Qed.

(** The sample lands in the upper three bytes of [_raw], sign included;
    the gain decides the number of pulses after it. *)
Example read_sample_10 :
  _raw (self (after_first_read (sample_board 3 sample_10))) = 10 * 256.
Proof. vm_compute. reflexivity. Qed.

Example read_sample_ones :
  _raw (self (after_first_read (sample_board 3 sample_ones))) = -1 * 256.
Proof. vm_compute. reflexivity. Qed.

Example read_sample_min :
  _raw (self (after_first_read (sample_board 3 sample_min)))
  = - 2 ^ 23 * 256.
Proof. vm_compute. reflexivity. Qed.

Example read_gain_pulses :
  map (fun g =>
         match read (SimpleHX711_new 2 3 3 g quiet_board) with
         | Some (_, m) => length (history (board m))
         | None => O
         end) [gain128; gain32; gain64]
  = [2 + 2 * (24 + 1); 2 + 2 * (24 + 2); 2 + 2 * (24 + 3)]%nat.
Proof. vm_compute. reflexivity. Qed.

(** ** Typing *)

Lemma SimpleHX711_new_well_typed clk dat ruv g b :
  in_u8 clk -> in_u8 dat -> in_u8 ruv ->
  well_typed (self (SimpleHX711_new clk dat ruv g b)).
Proof.
  intros Hc Hd Hr. constructor; members; cbn [SimpleHX711_new self];
    members; try assumption; try apply wrap_u32_range;
    unfold in_u8, in_u32, in_i32; lia.
Qed.

Lemma settled_well_typed o : well_typed o -> well_typed (snd (settled o)).
Proof.
  intros [? ? ? ? ? ? ? ? ? ? ?]. unfold settled.
  destruct (_ <? _); [cbn [_readCount _readsUntilValid set_readCount];
                      destruct (_ <? _) |];
    cbn [snd]; constructor; members; try assumption;
    try apply wrap_u8_range; apply wrap_i32_range.
Qed.

Lemma read_well_typed m res m' :
  read m = Some (res, m') -> well_typed (self m) -> well_typed (self m').
Proof.
  intros E H.
  destruct (clk_level m) eqn:Hc.
  - rewrite (read_poweredDown m Hc) in E. injection E as _ <-.
    destruct H. constructor; members; assumption.
  - destruct (data_level m) eqn:Hd.
    + rewrite (read_busy m Hc Hd) in E. cbv zeta in E.
      destruct (500 <=? _); injection E as _ <-; [| exact H].
      destruct H. constructor; members; assumption.
    + assert (Hr : ready m = true) by (unfold ready; now rewrite Hc, Hd).
      destruct (read_ready m Hr) as (r & now & b' & Rr & Rn & E').
      rewrite E' in E. injection E as _ <-. cbn [self].
      apply settled_well_typed. destruct H. unfold recovered.
      destruct (status_eqb _ _); constructor; members; try assumption;
        unfold in_u8; lia.
Qed.

(** ** Powered down *)

(** C4: when the clock line reads asserted at the start of [read], the call
    returns true, the status is poweredDown, and the raw reading, the
    smoothed reading, the timestamp, the read counter and every calibration
    value (tare, adjuster, alpha, readsUntilValid, gain, conversion start
    time) are what they were: the object differs in its status only. *)
Theorem read_clock_asserted_frame m :
  clk_level m = true ->
  exists m',
    read m = Some (true, m') /\
    self m' = set_status poweredDown (self m) /\
    _status (self m') = poweredDown /\
    _raw (self m') = _raw (self m) /\
    _smoothedRaw (self m') = _smoothedRaw (self m) /\
    _timestamp (self m') = _timestamp (self m) /\
    _readCount (self m') = _readCount (self m) /\
    _tare (self m') = _tare (self m) /\
    _adjuster (self m') = _adjuster (self m) /\
    _alpha (self m') = _alpha (self m) /\
    _readsUntilValid (self m') = _readsUntilValid (self m) /\
    _gain (self m') = _gain (self m) /\
    _conversionStartTime (self m') = _conversionStartTime (self m).
Proof.
  intros H. eexists. split; [apply (read_poweredDown m H) |].
  cbn. repeat split; reflexivity.
Qed.

Lemma read_clock_asserted_frame_witness :
  exists m',
    read (SimpleHX711_new 2 3 3 gain128 asleep_board) = Some (true, m') /\
    _status (self m') = poweredDown /\ _readCount (self m') = 0.
Proof.
  destruct (read_clock_asserted_frame
              (SimpleHX711_new 2 3 3 gain128 asleep_board) eq_refl)
    as (m' & E & _ & Hs & _ & _ & _ & Hc & _).
  exists m'. repeat split; assumption.
Defined.

(** ** Settling and smoothing *)

(** The settling gate on an object whose counter is below the threshold by
    more than one, by exactly one, or not at all. *)
Lemma settled_below o :
  0 <= _readCount o -> _readCount o + 1 < _readsUntilValid o ->
  _readsUntilValid o < 256 ->
  settled o = (false, set_readCount (_readCount o + 1) o).
Proof.
  intros H0 H1 H2. unfold settled.
  rewrite wrap_u8_id by (unfold in_u8; lia).
  destruct (Z.ltb_spec (_readCount o) (_readsUntilValid o)); [| lia].
  cbn [_readCount _readsUntilValid set_readCount].
  destruct (Z.ltb_spec (_readCount o + 1) (_readsUntilValid o)); [| lia].
  reflexivity.
Qed.

Lemma settled_reaching o :
  0 <= _readCount o -> _readCount o + 1 = _readsUntilValid o ->
  _readsUntilValid o < 256 ->
  settled o =
    (true, set_status valid
             (set_smoothedRaw (_raw o) (set_readCount (_readCount o + 1) o))).
Proof.
  intros H0 H1 H2. unfold settled.
  rewrite wrap_u8_id by (unfold in_u8; lia).
  destruct (Z.ltb_spec (_readCount o) (_readsUntilValid o)); [| lia].
  cbn [_readCount _readsUntilValid set_readCount].
  destruct (Z.ltb_spec (_readCount o + 1) (_readsUntilValid o)); [lia |].
  reflexivity.
Qed.

Lemma settled_steady o :
  _readsUntilValid o <= _readCount o ->
  settled o =
    (true, set_status valid
             (set_smoothedRaw
                (smoothing (_raw o) (_smoothedRaw o) (_alpha o)) o)).
Proof.
  intros H. unfold settled.
  destruct (Z.ltb_spec (_readCount o) (_readsUntilValid o)); [lia |].
  reflexivity.
Qed.

Lemma recovered_not_timedOut o :
  _status o <> timedOut -> recovered o = o.
Proof. unfold recovered. destruct (_status o); simpl; congruence. Qed.

Lemma ready_for_S n m :
  ready_for (S n) m = true ->
  ready m = true /\
  forall res m', read m = Some (res, m') -> ready_for n m' = true.
Proof.
  cbn [ready_for]. intros H. apply andb_true_iff in H as [H1 H2].
  split; [exact H1 |]. intros res m' E. now rewrite E in H2.
Qed.

(** C1: a fresh instance with readsUntilValid = 3 that finds the chip ready
    (clock line low, data line low) on each poll: the first and the second
    [read] return false and leave the status init, the third returns true
    with status valid and the smoothed reading equal to the raw value that
    this third poll acquired. *)
Theorem three_polls_until_valid clk dat g b :
  ready_for 3 (SimpleHX711_new clk dat 3 g b) = true ->
  exists m1 m2 m3,
    read (SimpleHX711_new clk dat 3 g b) = Some (false, m1) /\
    _status (self m1) = init /\
    read m1 = Some (false, m2) /\
    _status (self m2) = init /\
    read m2 = Some (true, m3) /\
    _status (self m3) = valid /\
    _smoothedRaw (self m3) = _raw (self m3).
Proof.
  intros H.
  apply ready_for_S in H as [H0 H].
  destruct (read_ready _ H0) as (r1 & n1 & b1 & _ & _ & E1).
  rewrite recovered_not_timedOut in E1 by (cbn; discriminate).
  rewrite settled_below in E1 by (cbn; lia).
  cbn [fst snd] in E1. specialize (H _ _ E1).
  apply ready_for_S in H as [H1 H].
  destruct (read_ready _ H1) as (r2 & n2 & b2 & _ & _ & E2).
  rewrite recovered_not_timedOut in E2 by (cbn; discriminate).
  rewrite settled_below in E2 by (cbn; lia).
  cbn [fst snd] in E2. specialize (H _ _ E2).
  apply ready_for_S in H as [H2 _].
  destruct (read_ready _ H2) as (r3 & n3 & b3 & _ & _ & E3).
  rewrite recovered_not_timedOut in E3 by (cbn; discriminate).
  rewrite settled_reaching in E3 by (cbn; lia).
  cbn [fst snd] in E3.
  eexists _, _, _.
  split; [exact E1 |]. split; [reflexivity |].
  split; [exact E2 |]. split; [reflexivity |].
  split; [exact E3 |]. split; reflexivity.
Qed.

Lemma three_polls_until_valid_witness :
  exists m1 m2 m3,
    read (SimpleHX711_new 2 3 3 gain64 (sample_board 165 sample_10))
      = Some (false, m1) /\
    read m1 = Some (false, m2) /\
    read m2 = Some (true, m3) /\
    _status (self m3) = valid /\
    _smoothedRaw (self m3) = _raw (self m3).
Proof.
  destruct (three_polls_until_valid 2 3 gain64
              (sample_board 165 sample_10) eq_refl)
    as (m1 & m2 & m3 & E1 & _ & E2 & _ & E3 & Hs & Hr).
  exists m1, m2, m3. repeat split; assumption.
Defined.

(** C10: with readsUntilValid = 0, a poll that does a transfer returns true
    with status valid, and the smoothed reading is the smoothing update of
    its previous value with the raw value just acquired; it is not seeded
    from the raw value. *)
Theorem zero_threshold_smooths_at_once m :
  ready m = true ->
  _readsUntilValid (self m) = 0 ->
  0 <= _readCount (self m) ->
  exists m',
    read m = Some (true, m') /\
    _status (self m') = valid /\
    _smoothedRaw (self m') =
      smoothing (_raw (self m')) (_smoothedRaw (self m)) (_alpha (self m)).
Proof.
  intros H Hruv Hrc.
  destruct (read_ready _ H) as (r & now & b' & _ & _ & E).
  rewrite settled_steady in E.
  - cbn [fst snd] in E. eexists. split; [exact E |].
    cbn [self]. unfold recovered.
    destruct (status_eqb _ _); split; reflexivity.
  - unfold recovered. destruct (status_eqb _ _); cbn; lia.
Qed.

Lemma zero_threshold_smooths_at_once_witness :
  exists m',
    read steady_machine = Some (true, m') /\
    _status (self m') = valid /\
    _smoothedRaw (self m') = smoothing (_raw (self m')) 0 200.
Proof.
  apply (zero_threshold_smooths_at_once steady_machine).
  - reflexivity.
  - reflexivity.
  - cbn. lia.
Defined.

(** The inner operations of line 142 cannot overflow: only the
    subtraction and the final addition wrap. *)
Lemma smoothing_wraps raw sm alpha :
  in_u8 alpha ->
  smoothing raw sm alpha =
    wrap_i32 (sm + Z.quot (wrap_i32 (raw - sm)) 256 * alpha).
Proof.
  intros Ha. unfold smoothing, add32, mul32, quot32, sub32.
  pose proof (quot_256_range _ (wrap_i32_range (raw - sm))) as Hq.
  rewrite (wrap_i32_id (Z.quot _ 256)) by (unfold in_i32; lia).
  rewrite (wrap_i32_id (Z.quot _ 256 * alpha)); [reflexivity |].
  unfold in_i32, in_u8 in *. nia.
Qed.

(** C3: in steady state (counter at the threshold) a poll that does a
    transfer replaces the smoothed reading by
    smoothed + ((raw - smoothed) / 256) * alpha in 32-bit arithmetic, the
    truncating division coming before the multiplication; where neither
    the difference nor the sum overflows this is the formula over the
    integers, and for raw = 2560, smoothed = 0, alpha = 200 it is 2000. *)
Theorem steady_state_smoothing m :
  ready m = true ->
  _status (self m) <> timedOut ->
  _readsUntilValid (self m) <= _readCount (self m) ->
  in_u8 (_alpha (self m)) ->
  exists m',
    read m = Some (true, m') /\
    let raw := _raw (self m') in
    let sm := _smoothedRaw (self m) in
    let alpha := _alpha (self m) in
    _smoothedRaw (self m') =
      wrap_i32 (sm + Z.quot (wrap_i32 (raw - sm)) 256 * alpha) /\
    (in_i32 (raw - sm) -> in_i32 (sm + Z.quot (raw - sm) 256 * alpha) ->
     _smoothedRaw (self m') = sm + Z.quot (raw - sm) 256 * alpha) /\
    (raw = 2560 -> sm = 0 -> alpha = 200 -> _smoothedRaw (self m') = 2000).
Proof.
  intros H Hs Hc Ha.
  destruct (read_ready _ H) as (r & now & b' & _ & _ & E).
  rewrite recovered_not_timedOut in E by assumption.
  rewrite settled_steady in E by (cbn; lia).
  cbn [fst snd] in E. eexists. split; [exact E |].
  cbn [self _raw _smoothedRaw set_status set_smoothedRaw
       set_conversionStartTime set_raw set_timestamp _alpha].
  split; [apply smoothing_wraps; assumption |].
  split.
  - intros Hd Hsum. apply smoothing_exact; assumption.
  - intros -> -> ->. reflexivity.
Qed.

Lemma steady_state_smoothing_witness :
  exists m',
    read steady_machine = Some (true, m') /\
    _raw (self m') = 2560 /\
    _smoothedRaw (self m') = 2000.
Proof.
  destruct (steady_state_smoothing steady_machine) as (m' & E & _ & _ & H).
  - reflexivity.
  - cbn. discriminate.
  - cbn. lia.
  - cbn. unfold in_u8. lia.
  - assert (Hraw : _raw (self m') = 2560).
    { vm_compute in E. injection E as <-. reflexivity. }
    exists m'. split; [exact E |]. split; [exact Hraw |].
    apply H; [exact Hraw | reflexivity | reflexivity].
Defined.

(** ** Time-out and recovery *)

(** C2, as stated, fails: when the chip stops answering after one good
    conversion, the second poll times out and the third poll, which finds
    the data line still high, reports timedOut again and leaves the
    counter at 1; it resets neither. *)
Lemma timedOut_next_poll_counterexample :
  ~ (forall m0 m1 res m2,
       read m0 = Some (true, m1) -> _status (self m1) = timedOut ->
       read m1 = Some (res, m2) ->
       _readCount (self m2) = 0 /\ _status (self m2) = init).
Proof.
  intros H.
  pose (m0 := after_first_read stalled_board).
  pose (m1 := match read m0 with Some (_, m) => m | None => m0 end).
  pose (m2 := match read m1 with Some (_, m) => m | None => m1 end).
  assert (E : _readCount (self m2) = 0 /\ _status (self m2) = init).
  { apply (H m0 m1 true m2); vm_compute; reflexivity. }
  assert (E' : _readCount (self m2) = 1 /\ _status (self m2) = timedOut)
    by (vm_compute; split; reflexivity).
  destruct E as [E _], E' as [E' _]. rewrite E' in E. discriminate E.
Qed.

(** C2, amended: after a poll that set timedOut, what the next poll does
    depends on the lines.  If it finds both low it does a transfer that
    starts from status init and counter 0, so that it ends with the counter
    at 1 (0 when the threshold is 0) and with status init if the threshold
    exceeds 1, valid otherwise.  If it finds the clock line high the status
    becomes poweredDown; if it finds the data line high the status stays
    timedOut; in both cases the counter is unchanged. *)
Theorem timedOut_next_poll m :
  _status (self m) = timedOut ->
  exists res m',
    read m = Some (res, m') /\
    if ready m then
      (exists r now,
         (res, self m') =
         settled (set_conversionStartTime now
                    (set_raw r
                       (set_timestamp (_conversionStartTime (self m))
                          (set_readCount 0 (set_status init (self m))))))) /\
      _readCount (self m') = (if 0 <? _readsUntilValid (self m) then 1 else 0) /\
      _status (self m') = (if 1 <? _readsUntilValid (self m) then init else valid)
    else if clk_level m then
      _status (self m') = poweredDown /\
      _readCount (self m') = _readCount (self m)
    else
      _status (self m') = timedOut /\
      _readCount (self m') = _readCount (self m).
Proof.
  intros Hs.
  destruct (ready m) eqn:Hr.
  - destruct (read_ready _ Hr) as (r & now & b' & _ & _ & E).
    unfold recovered in E. rewrite Hs in E. cbn [status_eqb] in E.
    eexists _, _. split; [exact E |]. cbn [self]. split.
    + exists r, now. now destruct (settled _).
    + unfold settled.
      cbn [_readCount _readsUntilValid set_conversionStartTime set_raw
           set_timestamp set_readCount set_status].
      change (wrap_u8 (0 + 1)) with 1.
      destruct (Z.ltb_spec 0 (_readsUntilValid (self m))) as [H0 | H0];
        destruct (Z.ltb_spec 1 (_readsUntilValid (self m))) as [H1 | H1];
        try lia; split; reflexivity.
  - unfold ready in Hr. destruct (clk_level m) eqn:Hc.
    + rewrite (read_poweredDown m Hc). eexists _, _.
      split; [reflexivity |]. split; reflexivity.
    + destruct (data_level m) eqn:Hd; [| discriminate Hr].
      rewrite (read_busy m Hc Hd). cbv zeta.
      destruct (500 <=? _); eexists _, _; (split; [reflexivity |]);
        cbn [self]; split; try reflexivity; exact Hs.
Qed.

Lemma timedOut_next_poll_witness :
  exists res m',
    read (after_first_read replugged_board) = Some (res, m') /\
    _readCount (self m') = 1 /\ _status (self m') = init.
Proof.
  destruct (timedOut_next_poll (after_first_read replugged_board) eq_refl)
    as (res & m' & E & H).
  exists res, m'. split; [exact E |].
  change (ready (after_first_read replugged_board)) with true in H.
  destruct H as (_ & Hc & Hst). split; [exact Hc | exact Hst].
Defined.

(** ** The counter and its threshold *)

Lemma settled_counter_bounded o :
  counter_bounded o -> counter_bounded (snd (settled o)).
Proof.
  unfold counter_bounded, settled. intros H.
  destruct (Z.ltb_spec (_readCount o) (_readsUntilValid o)) as [Hlt | Hge].
  - pose proof (wrap_u8_le (_readCount o + 1) ltac:(lia)) as Hw.
    cbn [_readCount _readsUntilValid set_readCount].
    destruct (_ <? _); cbn; lia.
  - cbn. lia.
Qed.

Lemma read_counter_bounded m res m' :
  read m = Some (res, m') ->
  counter_bounded (self m) -> counter_bounded (self m').
Proof.
  intros E H.
  destruct (clk_level m) eqn:Hc.
  - rewrite (read_poweredDown m Hc) in E. injection E as _ <-. exact H.
  - destruct (data_level m) eqn:Hd.
    + rewrite (read_busy m Hc Hd) in E. cbv zeta in E.
      destruct (500 <=? _); injection E as _ <-; exact H.
    + assert (Hr : ready m = true) by (unfold ready; now rewrite Hc, Hd).
      destruct (read_ready m Hr) as (r & now & b' & _ & _ & E').
      rewrite E' in E. injection E as _ <-. cbn [self].
      apply settled_counter_bounded.
      unfold counter_bounded, recovered in *.
      destruct (status_eqb _ _); cbn; lia.
Qed.

Lemma perform_counter_bounded c m m' :
  perform c m = Some (tt, m') ->
  match c with
  | SetReadsUntilValid n => _readCount (self m) <= n
  | _ => True
  end ->
  counter_bounded (self m) -> counter_bounded (self m').
Proof.
  intros E G H. destruct c; cbn [perform] in E;
    try (injection E as <-; unfold counter_bounded in *; cbn; lia).
  - (* read *)
    unfold discard in E. destruct (read_total m) as (res & m1 & E1).
    rewrite (bind_Some _ _ _ _ _ E1) in E. injection E as <-.
    exact (read_counter_bounded _ _ _ E1 H).
  - (* adjustTo *)
    unfold adjustTo in E.
    destruct smoothed; unfold bind, member, checked in E;
      destruct (div32 _ _); try discriminate E;
      injection E as <-; exact H.
  - (* getAdjusted *)
    unfold discard, getAdjusted in E.
    destruct smoothed; unfold bind, member, checked in E; cbn [id] in E;
      destruct (div32 _ _); try discriminate E;
      injection E as <-; exact H.
Qed.

(** C5, as stated, fails: after three polls the counter is 3, and
    [setReadsUntilValid(1)] leaves it there, above the new threshold. *)
Lemma counter_bound_counterexample :
  ~ (forall clk dat ruv g b cs m,
       in_u8 clk -> in_u8 dat -> in_u8 ruv ->
       perform_all cs (SimpleHX711_new clk dat ruv g b) = Some (tt, m) ->
       _readCount (self m) <= _readsUntilValid (self m)).
Proof.
  intros H.
  pose (cs := [Read; Read; Read; SetReadsUntilValid 1]).
  pose (m0 := SimpleHX711_new 2 3 3 gain128 quiet_board).
  pose (m := match perform_all cs m0 with Some (_, m) => m | None => m0 end).
  assert (E : _readCount (self m) <= _readsUntilValid (self m)).
  { apply (H 2 3 3 gain128 quiet_board cs m).
    - clear. unfold in_u8. lia.
    - clear. unfold in_u8. lia.
    - clear. unfold in_u8. lia.
    - vm_compute. reflexivity. }
  vm_compute in E. apply E. reflexivity.
Qed.

(** C5, amended: in every state reached from construction by public calls
    among which no [setReadsUntilValid] lowers the threshold below the
    counter of the moment, the counter is between 0 and the threshold.
    ([setReadsUntilValid] stores the threshold and leaves the counter.) *)
Theorem counter_bound_unless_lowered clk dat ruv g b cs m :
  0 <= ruv ->
  threshold_respected cs (SimpleHX711_new clk dat ruv g b) = true ->
  perform_all cs (SimpleHX711_new clk dat ruv g b) = Some (tt, m) ->
  0 <= _readCount (self m) <= _readsUntilValid (self m).
Proof.
  intros Hruv.
  assert (H0 : counter_bounded (self (SimpleHX711_new clk dat ruv g b)))
    by (unfold counter_bounded; cbn; lia).
  revert H0. generalize (SimpleHX711_new clk dat ruv g b) as m0.
  induction cs as [| c cs IH]; intros m0 H0 Hk E.
  - cbn in E. injection E as <-. exact H0.
  - cbn [threshold_respected] in Hk. cbn [perform_all] in E.
    apply andb_true_iff in Hk as [Hc Hk].
    unfold bind in E. destruct (perform c m0) as [[[] m1] |] eqn:E1;
      [| discriminate E].
    apply (IH m1); [| exact Hk | exact E].
    apply (perform_counter_bounded c m0 m1 E1); [| exact H0].
    destruct c; try exact I. apply Z.leb_le. exact Hc.
Qed.

Lemma counter_bound_unless_lowered_witness :
  perform_all busy_session (SimpleHX711_new 2 3 3 gain128 quiet_board)
    = Some (tt, after_busy_session) /\
  0 <= _readCount (self after_busy_session)
    <= _readsUntilValid (self after_busy_session).
Proof.
  assert (E : perform_all busy_session
                (SimpleHX711_new 2 3 3 gain128 quiet_board)
              = Some (tt, after_busy_session))
    by (vm_compute; reflexivity).
  split; [exact E |].
  apply (counter_bound_unless_lowered 2 3 3 gain128 quiet_board
           busy_session after_busy_session).
  - lia.
  - vm_compute. reflexivity.
  - exact E.
Defined.

(** ** Gain change *)

Lemma settled_still_settling k o :
  still_settling k o ->
  still_settling (k + 1) (snd (settled o)) /\
  _readsUntilValid (snd (settled o)) = _readsUntilValid o.
Proof.
  unfold still_settling, settled. intros [(Hs & Hc & Hlt) | Hk].
  - destruct (Z.ltb_spec (_readCount o) (_readsUntilValid o)); [| lia].
    pose proof (wrap_u8_le (_readCount o + 1) ltac:(lia)) as Hw.
    cbn [_readCount _readsUntilValid set_readCount].
    destruct (Z.ltb_spec (wrap_u8 (_readCount o + 1)) (_readsUntilValid o)).
    + split; [| reflexivity]. left. cbn. repeat split; try lia. exact Hs.
    + split; [| reflexivity]. right. cbn. lia.
  - destruct (_ <? _); [destruct (_ <? _) |];
      (split; [| reflexivity]); right; cbn; lia.
Qed.

Lemma read_still_settling k m res m' :
  read m = Some (res, m') ->
  still_settling k (self m) ->
  still_settling (k + (if ready m then 1 else 0)) (self m') /\
  _readsUntilValid (self m') = _readsUntilValid (self m).
Proof.
  intros E H. unfold ready.
  destruct (clk_level m) eqn:Hc; cbn [negb andb].
  - rewrite (read_poweredDown m Hc) in E. injection E as _ <-.
    rewrite Z.add_0_r. split; [| reflexivity].
    destruct H as [(Hs & Hb) | Hk]; [left | right; exact Hk].
    cbn. split; [discriminate | exact Hb].
  - destruct (data_level m) eqn:Hd; cbn [negb].
    + rewrite (read_busy m Hc Hd) in E. cbv zeta in E. rewrite Z.add_0_r.
      destruct (500 <=? _); injection E as _ <-;
        (split; [| reflexivity]); [| exact H].
      destruct H as [(Hs & Hb) | Hk]; [left | right; exact Hk].
      cbn. split; [discriminate | exact Hb].
    + assert (Hr : ready m = true) by (unfold ready; now rewrite Hc, Hd).
      destruct (read_ready m Hr) as (r & now & b' & _ & _ & E').
      rewrite E' in E. injection E as _ <-. cbn [self].
      match goal with
      | |- context [settled ?o] =>
          destruct (settled_still_settling k o) as [H1 H2]
      end.
      * unfold still_settling, recovered in *.
        destruct H as [(Hs & Hb & Hlt) | Hk].
        -- left. destruct (status_eqb _ _); cbn; repeat split;
             try lia; try discriminate; exact Hs.
        -- right. destruct (status_eqb _ _); exact Hk.
      * split; [exact H1 |]. rewrite H2. unfold recovered.
        destruct (status_eqb _ _); reflexivity.
Qed.

Lemma polls_still_settling n : forall k m,
  still_settling k (self m) ->
  exists m',
    polls n m = Some m' /\
    still_settling (k + Z.of_nat (transfers n m)) (self m') /\
    _readsUntilValid (self m') = _readsUntilValid (self m).
Proof.
  induction n as [| n IH]; intros k m H.
  - exists m. cbn. rewrite Z.add_0_r. auto.
  - destruct (read_total m) as (res & m1 & E).
    destruct (read_still_settling k m res m1 E H) as [H1 H2].
    destruct (IH _ m1 H1) as (m' & E' & H3 & H4).
    exists m'. cbn [polls transfers]. rewrite E. split; [exact E' |].
    split; [| congruence].
    replace (k + Z.of_nat ((if ready m then 1 else 0) + transfers n m1))
      with (k + (if ready m then 1 else 0) + Z.of_nat (transfers n m1));
      [exact H3 |].
    destruct (ready m); lia.
Qed.

(** Ready polls that bring the counter from below the threshold up to it
    end with status valid. *)
Lemma polls_reach_valid k : forall m,
  _status (self m) <> timedOut ->
  0 <= _readCount (self m) ->
  _readCount (self m) + Z.of_nat (S k) = _readsUntilValid (self m) ->
  _readsUntilValid (self m) < 256 ->
  ready_for (S k) m = true ->
  exists m',
    polls (S k) m = Some m' /\ _status (self m') = valid /\
    _readCount (self m') = _readsUntilValid (self m).
Proof.
  induction k as [| k IH]; intros m Hs H0 Hk Hu Hr;
    apply ready_for_S in Hr as [Hr Hnext];
    destruct (read_ready _ Hr) as (r & now & b' & _ & _ & E);
    rewrite recovered_not_timedOut in E by assumption.
  - rewrite settled_reaching in E by (members; lia). cbn [fst snd] in E.
    eexists. cbn [polls]. rewrite E. split; [reflexivity |].
    cbn. split; [reflexivity | lia].
  - rewrite settled_below in E by (members; lia). cbn [fst snd] in E.
    specialize (Hnext _ _ E).
    apply IH in Hnext; [| exact Hs | members; lia .. ].
    destruct Hnext as (m' & E' & Hv & Hc).
    exists m'. change (polls (S (S k)) m)
      with (match read m with
            | Some (_, m1) => polls (S k) m1
            | None => None
            end).
    rewrite E. split; [exact E' |]. split; [exact Hv | exact Hc].
Qed.

(** After [setGain], as many ready polls as the threshold says bring the
    status back to valid. *)
Lemma setGain_then_threshold_polls m g k :
  _readsUntilValid (self m) = Z.of_nat (S k) ->
  _readsUntilValid (self m) < 256 ->
  forall m1, setGain g m = Some (tt, m1) ->
  ready_for (S k) m1 = true ->
  exists m2, polls (S k) m1 = Some m2 /\ _status (self m2) = valid.
Proof.
  intros Hk Hu m1 E Hr.
  unfold setGain, bind, assign in E. cbn [self board] in E.
  injection E as <-.
  apply polls_reach_valid in Hr; [| members; try discriminate; lia .. ].
  destruct Hr as (m2 & E2 & Hv & _).
  exists m2. split; assumption.
Qed.

(** C6: [setGain] stores the gain, sets the status to init and the counter
    to 0 and touches nothing else; whatever the lines do afterwards, a run
    of polls that ends with status valid contains at least readsUntilValid
    polls that did a transfer. *)
Theorem setGain_restarts_settling m g n :
  exists m1 m2,
    setGain g m = Some (tt, m1) /\
    m1 = mkMachine (set_readCount 0 (set_status init (set_gain g (self m))))
                   (board m) /\
    _gain (self m1) = g /\
    _status (self m1) = init /\
    _readCount (self m1) = 0 /\
    polls n m1 = Some m2 /\
    (_status (self m2) = valid ->
     _readsUntilValid (self m) <= Z.of_nat (transfers n m1)).
Proof.
  set (m1 := mkMachine (set_readCount 0 (set_status init (set_gain g (self m))))
                       (board m)).
  assert (H : still_settling 0 (self m1)).
  { unfold still_settling. cbn.
    destruct (Z_lt_le_dec 0 (_readsUntilValid (self m))); [left | right].
    - repeat split; try lia. discriminate.
    - assumption. }
  destruct (polls_still_settling n 0 m1 H) as (m2 & E & H2 & H3).
  exists m1, m2. repeat split; try reflexivity; try exact E.
  intros Hv. destruct H2 as [(Hs & _) | Hk]; [contradiction |].
  rewrite H3 in Hk. cbn in Hk. lia.
Qed.

Lemma setGain_restarts_settling_witness :
  exists m1 m2,
    setGain gain64 (after_first_read quiet_board) = Some (tt, m1) /\
    polls 3 m1 = Some m2 /\
    _status (self m2) = valid /\
    3 <= Z.of_nat (transfers 3 m1).
Proof.
  destruct (setGain_restarts_settling (after_first_read quiet_board) gain64 3)
    as (m1 & m2 & E1 & Em & _ & _ & _ & E2 & H).
  assert (Hv : _status (self m2) = valid).
  { subst m1. vm_compute in E2. injection E2 as <-. reflexivity. }
  exists m1, m2. split; [exact E1 |]. split; [exact E2 |].
  split; [exact Hv |]. exact (H Hv).
Defined.

(** ** Calibration *)

Lemma quot32_1 a : in_i32 a -> quot32 a 1 = a.
Proof. intros H. unfold quot32. rewrite Z.quot_1_r. now apply wrap_i32_id. Qed.

Lemma adjustTo_eq m value smoothed :
  adjustTo value smoothed m =
  Some (tt, mkMachine
              (set_adjuster
                 (quot32 (sub32 (reading smoothed (self m)) (_tare (self m)))
                         (if value =? 0 then 1 else value))
                 (self m))
              (board m)).
Proof.
  unfold adjustTo, reading.
  assert (Hnz : ((if value =? 0 then 1 else value) =? 0) = false).
  { destruct (Z.eqb_spec value 0); [reflexivity |]. now apply Z.eqb_neq. }
  destruct smoothed; unfold bind, member, checked, div32; cbn [id];
    rewrite Hnz; reflexivity.
Qed.

(** C7: [adjustTo] never faults and changes the adjuster only.  With a
    target of 0 the adjuster becomes reading - tare (32-bit subtraction):
    the target is taken as 1.  With any other target it becomes
    (reading - tare) / target, the truncating 32-bit quotient, which is the
    quotient over the integers when nothing overflows.  The reading is the
    smoothed or the raw one per the flag. *)
Theorem adjustTo_guarded m value smoothed :
  exists q,
    adjustTo value smoothed m
      = Some (tt, mkMachine (set_adjuster q (self m)) (board m)) /\
    (value = 0 ->
     q = sub32 (reading smoothed (self m)) (_tare (self m))) /\
    (value <> 0 ->
     q = quot32 (sub32 (reading smoothed (self m)) (_tare (self m))) value) /\
    (value <> 0 ->
     in_i32 (reading smoothed (self m) - _tare (self m)) ->
     in_i32 (Z.quot (reading smoothed (self m) - _tare (self m)) value) ->
     q = Z.quot (reading smoothed (self m) - _tare (self m)) value).
Proof.
  eexists. split; [apply adjustTo_eq |]. split; [| split].
  - intros ->. cbn [Z.eqb]. apply quot32_1, wrap_i32_range.
  - intros Hv. apply Z.eqb_neq in Hv. now rewrite Hv.
  - intros Hv Hd Hq. apply Z.eqb_neq in Hv. rewrite Hv.
    unfold quot32, sub32. rewrite (wrap_i32_id _ Hd). now apply wrap_i32_id.
Qed.

Lemma adjustTo_guarded_witness :
  (exists m', adjustTo 0 false loaded_machine = Some (tt, m')
              /\ _adjuster (self m') = 2560) /\
  (exists m', adjustTo 7 true loaded_machine = Some (tt, m')
              /\ _adjuster (self m') = 285).
Proof.
  split.
  - destruct (adjustTo_guarded loaded_machine 0 false) as (q & E & H & _).
    eexists. split; [exact E |]. cbn [self _adjuster set_adjuster].
    rewrite (H eq_refl). reflexivity.
  - destruct (adjustTo_guarded loaded_machine 7 true) as (q & E & _ & _ & H).
    eexists. split; [exact E |]. cbn [self _adjuster set_adjuster].
    rewrite H.
    + reflexivity.
    + discriminate.
    + vm_compute. split; [discriminate | reflexivity].
    + vm_compute. split; [discriminate | reflexivity].
Defined.

Lemma getAdjusted_eq m smoothed :
  getAdjusted smoothed m =
  match div32 (sub32 (reading smoothed (self m)) (_tare (self m)))
              (_adjuster (self m)) with
  | Some q => Some (q, m)
  | None => None
  end.
Proof.
  unfold getAdjusted, reading. rewrite bind_member. unfold id, checked.
  destruct smoothed; destruct (div32 _ _); reflexivity.
Qed.

(** C8: [getAdjusted] divides without a guard.  With a non-zero adjuster it
    returns (reading - tare) / adjuster, the truncating 32-bit quotient of
    the 32-bit difference, and leaves the object as it is; with a zero
    adjuster the division is undefined: the call faults. *)
Theorem getAdjusted_unguarded m smoothed :
  (_adjuster (self m) <> 0 ->
   getAdjusted smoothed m =
     Some (quot32 (sub32 (reading smoothed (self m)) (_tare (self m)))
                  (_adjuster (self m)), m)) /\
  (_adjuster (self m) = 0 -> getAdjusted smoothed m = None).
Proof.
  rewrite getAdjusted_eq. unfold div32. split; intros H.
  - apply Z.eqb_neq in H. rewrite H. reflexivity.
  - apply Z.eqb_eq in H. rewrite H. reflexivity.
Qed.

Lemma getAdjusted_unguarded_witness :
  getAdjusted false loaded_machine = Some (10, loaded_machine) /\
  getAdjusted false
    (mkMachine (set_adjuster 0 (self loaded_machine)) (board loaded_machine))
  = None.
Proof.
  split.
  - rewrite (proj1 (getAdjusted_unguarded loaded_machine false)).
    + vm_compute. reflexivity.
    + vm_compute. discriminate.
  - apply (proj2 (getAdjusted_unguarded _ false)). vm_compute. reflexivity.
Defined.

(** A poll leaves the calibration alone and keeps [_raw] an [int32_t]. *)
Lemma settled_calibration o :
  _tare (snd (settled o)) = _tare o /\
  _adjuster (snd (settled o)) = _adjuster o /\
  _raw (snd (settled o)) = _raw o.
Proof.
  unfold settled. destruct (_ <? _); [destruct (_ <? _) |];
    repeat split; reflexivity.
Qed.

Lemma read_calibration m res m' :
  read m = Some (res, m') ->
  _tare (self m') = _tare (self m) /\
  _adjuster (self m') = _adjuster (self m) /\
  (in_i32 (_raw (self m)) -> in_i32 (_raw (self m'))).
Proof.
  intros E.
  destruct (clk_level m) eqn:Hc.
  - rewrite (read_poweredDown m Hc) in E. injection E as _ <-.
    cbn. auto.
  - destruct (data_level m) eqn:Hd.
    + rewrite (read_busy m Hc Hd) in E. cbv zeta in E.
      destruct (500 <=? _); injection E as _ <-; cbn; auto.
    + assert (Hr : ready m = true) by (unfold ready; now rewrite Hc, Hd).
      destruct (read_ready m Hr) as (r & now & b' & Rr & _ & E').
      rewrite E' in E. injection E as _ <-. cbn [self].
      match goal with
      | |- context [settled ?o] =>
          destruct (settled_calibration o) as (-> & -> & ->)
      end.
      unfold recovered. destruct (status_eqb _ _); cbn; auto.
Qed.

Lemma polls_calibration n : forall m,
  exists m',
    polls n m = Some m' /\
    _tare (self m') = _tare (self m) /\
    _adjuster (self m') = _adjuster (self m) /\
    (in_i32 (_raw (self m)) -> in_i32 (_raw (self m'))).
Proof.
  induction n as [| n IH]; intros m.
  - exists m. cbn. auto.
  - destruct (read_total m) as (res & m1 & E).
    destruct (read_calibration m res m1 E) as (Ht & Ha & Hr).
    destruct (IH m1) as (m' & E' & Ht' & Ha' & Hr').
    exists m'. cbn [polls]. rewrite E. split; [exact E' |].
    split; [congruence |]. split; [congruence | auto].
Qed.

(** C9: a fresh instance has tare 0, alpha 200, adjuster 256, raw 0,
    smoothed 0 and timestamp 0.  Until something calibrates it,
    [getAdjusted(false)] is the raw reading divided by 256 (truncating):
    0 at once, and [_raw / 256] after any number of polls. *)
Theorem fresh_instance_calibration clk dat ruv g b n :
  let m0 := SimpleHX711_new clk dat ruv g b in
  _tare (self m0) = 0 /\
  _alpha (self m0) = 200 /\
  _adjuster (self m0) = 256 /\
  _raw (self m0) = 0 /\
  _smoothedRaw (self m0) = 0 /\
  _timestamp (self m0) = 0 /\
  getAdjusted false m0 = Some (0, m0) /\
  exists m,
    polls n m0 = Some m /\
    getAdjusted false m = Some (Z.quot (_raw (self m)) 256, m).
Proof.
  intros m0. repeat (split; [reflexivity |]).
  destruct (polls_calibration n m0) as (m & E & Ht & Ha & Hr).
  exists m. split; [exact E |].
  rewrite getAdjusted_eq. unfold reading, div32, quot32, sub32.
  rewrite Ht, Ha. cbn [m0 self _tare _adjuster SimpleHX711_new Z.eqb].
  rewrite Z.sub_0_r.
  assert (Hraw : in_i32 (_raw (self m)))
    by (apply Hr; cbn; unfold in_i32; lia).
  rewrite (wrap_i32_id _ Hraw).
  rewrite (wrap_i32_id (Z.quot _ 256)); [reflexivity |].
  pose proof (quot_256_range _ Hraw). unfold in_i32. lia.
Qed.

(** After one poll that acquires 2560 an uncalibrated instance reports 10. *)
Example uncalibrated_reading :
  getAdjusted false loaded_machine = Some (10, loaded_machine).
Proof. reflexivity. Qed.

(** * Further properties *)

(** ** The transfer, step by step *)

Lemma shift_bit_exact j m :
  shift_bit j m =
  Some (tt,
        mkMachine
          (set_raw (shift_byte j (lines (board m) (S (elapsed (board m)))
                                    (_pinData (self m)))
                      (_raw (self m)))
             (self m))
          (mkBoard (lines (board m)) (clock (board m))
             (3 + elapsed (board m))
             (pulse_train (_pinClk (self m)) 1 ++ history (board m)))).
Proof. reflexivity. Qed.

Lemma pulse_train_app clk n k :
  pulse_train clk n ++ pulse_train clk k = pulse_train clk (n + k).
Proof.
  induction n as [| n IH]; [reflexivity |].
  cbn [pulse_train Nat.add app]. now rewrite IH.
Qed.

Lemma for_i_exact n j : forall m,
  for_i n j m =
  Some (tt,
        mkMachine
          (set_raw (raw_after_i (lines (board m)) (_pinData (self m))
                      (S (elapsed (board m))) n j (_raw (self m)))
             (self m))
          (mkBoard (lines (board m)) (clock (board m))
             (3 * n + elapsed (board m))
             (pulse_train (_pinClk (self m)) n ++ history (board m)))).
Proof.
  induction n as [| n IH]; intros m.
  - cbn. rewrite set_raw_same. now destruct m as [o []].
  - cbn [for_i]. rewrite (bind_Some _ _ _ _ _ (shift_bit_exact j m)).
    rewrite IH. cbn [self board lines clock elapsed history _raw _pinData
                     _pinClk set_raw raw_after_i].
    rewrite app_assoc, pulse_train_app.
    replace (S (3 + elapsed (board m))) with (S (elapsed (board m)) + 3)%nat
      by lia.
    replace (3 * n + (3 + elapsed (board m)))%nat
      with (3 * S n + elapsed (board m))%nat by lia.
    replace (n + 1)%nat with (S n) by lia.
    rewrite set_raw_set_raw. reflexivity.
Qed.

Lemma raw_after_j_S ln dat t n raw :
  raw_after_j ln dat t (S n) raw =
  raw_after_j ln dat (t + 24) n (raw_after_i ln dat t 8 (Z.of_nat (S n)) raw).
Proof. lazy [raw_after_j]. fold raw_after_j. reflexivity. Qed.

Lemma for_j_exact n : forall m,
  for_j n m =
  Some (tt,
        mkMachine
          (set_raw (raw_after_j (lines (board m)) (_pinData (self m))
                      (S (elapsed (board m))) n (_raw (self m)))
             (self m))
          (mkBoard (lines (board m)) (clock (board m))
             (24 * n + elapsed (board m))
             (pulse_train (_pinClk (self m)) (8 * n) ++ history (board m)))).
Proof.
  induction n as [| n IH]; intros m.
  - cbn. rewrite set_raw_same. now destruct m as [o []].
  - cbn [for_j]. rewrite (bind_Some _ _ _ _ _ (for_i_exact 8 _ m)).
    rewrite IH.
    cbn [self board lines clock elapsed history _raw _pinData _pinClk
         set_raw].
    rewrite raw_after_j_S.
    rewrite app_assoc, pulse_train_app.
    replace (S (3 * 8 + elapsed (board m)))
      with (S (elapsed (board m)) + 24)%nat by lia.
    replace (24 * n + (3 * 8 + elapsed (board m)))%nat
      with (24 * S n + elapsed (board m))%nat by lia.
    replace (8 * n + 8)%nat with (8 * S n)%nat by lia.
    reflexivity.
Qed.

Lemma switch_gain_exact m :
  switch_gain m =
  Some (tt,
        mkMachine (self m)
          (mkBoard (lines (board m)) (clock (board m))
             (2 * extra_pulses (_gain (self m)) + elapsed (board m))
             (pulse_train (_pinClk (self m)) (extra_pulses (_gain (self m)))
              ++ history (board m)))).
Proof.
  unfold switch_gain. rewrite bind_member.
  destruct (_gain (self m)); reflexivity.
Qed.

(** ** Bytes of [_raw] *)

Lemma wrap_u32_wrap_i32 z : wrap_u32 (wrap_i32 z) = wrap_u32 z.
Proof.
  unfold wrap_u32, wrap_i32.
  rewrite Zminus_mod, Zmod_mod, <- Zminus_mod. f_equal. lia.
Qed.

Lemma wrap_i32_wrap_u32 z : wrap_i32 (wrap_u32 z) = wrap_i32 z.
Proof.
  unfold wrap_u32, wrap_i32. f_equal.
  rewrite Zplus_mod, Zmod_mod, <- Zplus_mod. reflexivity.
Qed.

Lemma get_byte_range j x : 0 <= get_byte j x < 256.
Proof.
  unfold get_byte. change 255 with (Z.ones 8).
  rewrite Z.land_ones by lia. apply Z.mod_pos_bound. lia.
Qed.

Lemma get_set_byte_same j b x :
  0 <= j <= 3 -> get_byte j (set_byte j b x) = wrap_u8 b.
Proof.
  intros Hj. unfold get_byte, set_byte. rewrite wrap_u32_wrap_i32.
  unfold wrap_u32, wrap_u8.
  change 255 with (Z.ones 8). change 256 with (2 ^ 8).
  assert (j = 0 \/ j = 1 \/ j = 2 \/ j = 3) as [-> | [-> | [-> | ->]]]
    by lia; Z.bitblast.
Qed.

Lemma get_set_byte_other i j b x :
  0 <= i <= 3 -> 0 <= j <= 3 -> i <> j ->
  get_byte i (set_byte j b x) = get_byte i x.
Proof.
  intros Hi Hj Hij. unfold get_byte, set_byte. rewrite wrap_u32_wrap_i32.
  unfold wrap_u32, wrap_u8.
  change 255 with (Z.ones 8). change 256 with (2 ^ 8).
  assert (i = 0 \/ i = 1 \/ i = 2 \/ i = 3) as [-> | [-> | [-> | ->]]]
    by lia;
  assert (j = 0 \/ j = 1 \/ j = 2 \/ j = 3) as [-> | [-> | [-> | ->]]]
    by lia;
  try contradiction; Z.bitblast;
  repeat match goal with
         | H : ?l < 0 |- context [Z.testbit ?a ?l] =>
             rewrite (Z.testbit_neg_r a l H)
         end;
  cbn [negb andb orb];
  repeat first [rewrite andb_true_r | rewrite andb_false_r
               | rewrite orb_false_r | rewrite andb_true_l ];
  reflexivity.
Qed.

(** An [int32_t] is made of its four bytes. *)
Lemma bytes_rebuild r :
  in_i32 r ->
  r = wrap_i32 (get_byte 0 r + 2 ^ 8 * get_byte 1 r + 2 ^ 16 * get_byte 2 r
                + 2 ^ 24 * get_byte 3 r).
Proof.
  intros Hr. rewrite <- (wrap_i32_id r Hr) at 1.
  rewrite <- (wrap_i32_wrap_u32 r). f_equal.
  unfold get_byte. change 255 with (Z.ones 8).
  rewrite !Z.land_ones, !Z.shiftr_div_pow2 by lia.
  pose proof (wrap_u32_range r) as Hu. unfold in_u32 in Hu.
  generalize dependent (wrap_u32 r). clear. intros u Hu.
  change (8 * 0) with 0. change (8 * 1) with 8. change (8 * 2) with 16.
  change (8 * 3) with 24. change (2 ^ 0) with 1. rewrite Z.div_1_r.
  Z.div_mod_to_equations. lia.
Qed.

(** ** The number shifted in *)

Lemma shifted_in_acc ln dat n : forall t acc,
  shifted_in ln dat t n acc = acc * 2 ^ Z.of_nat n + shifted_in ln dat t n 0.
Proof.
  induction n as [| n IH]; intros t acc.
  - cbn. lia.
  - cbn [shifted_in]. rewrite (IH _ (2 * acc + _)), (IH _ (2 * 0 + _)).
    rewrite Nat2Z.inj_succ, Z.pow_succ_r by lia. lia.
Qed.

Lemma shifted_in_range ln dat n : forall t,
  0 <= shifted_in ln dat t n 0 < 2 ^ Z.of_nat n.
Proof.
  induction n as [| n IH]; intros t.
  - cbn. lia.
  - cbn [shifted_in]. rewrite shifted_in_acc.
    rewrite Nat2Z.inj_succ, Z.pow_succ_r by lia.
    specialize (IH (t + 3)%nat). destruct (ln t dat); cbn [Z.b2z]; lia.
Qed.

Lemma shifted_in_app ln dat n k : forall t acc,
  shifted_in ln dat t (n + k) acc =
  shifted_in ln dat (t + 3 * n) k (shifted_in ln dat t n acc).
Proof.
  induction n as [| n IH]; intros t acc.
  - cbn [shifted_in Nat.add]. f_equal. lia.
  - cbn [shifted_in Nat.add]. rewrite IH. f_equal. lia.
Qed.

Lemma shifted_in_wrap_u8 ln dat t n acc :
  wrap_u8 (shifted_in ln dat t n (wrap_u8 acc)) =
  wrap_u8 (shifted_in ln dat t n acc).
Proof.
  rewrite (shifted_in_acc _ _ _ _ (wrap_u8 acc)), (shifted_in_acc _ _ _ _ acc).
  unfold wrap_u8.
  rewrite Z.add_mod, Z.mul_mod_idemp_l, <- Z.add_mod by lia. reflexivity.
Qed.

(** ** What the loops leave in [_raw] *)

Lemma shift_byte_same j level raw :
  0 <= j <= 3 ->
  get_byte j (shift_byte j level raw) =
  wrap_u8 (2 * get_byte j raw + Z.b2z level).
Proof.
  intros Hj. unfold shift_byte. rewrite get_set_byte_same by assumption.
  rewrite Z.shiftl_mul_pow2 by lia. f_equal. lia.
Qed.

Lemma raw_after_i_same ln dat j n : forall t raw,
  0 <= j <= 3 ->
  get_byte j (raw_after_i ln dat t n j raw) =
  wrap_u8 (shifted_in ln dat t n (get_byte j raw)).
Proof.
  induction n as [| n IH]; intros t raw Hj.
  - cbn [raw_after_i shifted_in]. symmetry. apply wrap_u8_id.
    apply get_byte_range.
  - cbn [raw_after_i shifted_in]. rewrite IH by assumption.
    rewrite shift_byte_same by assumption. apply shifted_in_wrap_u8.
Qed.

Lemma raw_after_i_other ln dat i j n : forall t raw,
  0 <= i <= 3 -> 0 <= j <= 3 -> i <> j ->
  get_byte i (raw_after_i ln dat t n j raw) = get_byte i raw.
Proof.
  induction n as [| n IH]; intros t raw Hi Hj Hij.
  - reflexivity.
  - cbn [raw_after_i]. rewrite IH by assumption.
    unfold shift_byte. now apply get_set_byte_other.
Qed.

Lemma raw_after_i_range ln dat j n : forall t raw,
  in_i32 raw -> in_i32 (raw_after_i ln dat t n j raw).
Proof.
  induction n as [| n IH]; intros t raw Hr.
  - exact Hr.
  - cbn [raw_after_i]. apply IH. apply set_byte_range.
Qed.

(** A byte filled by eight passes holds the eight levels, the first one
    in its top bit; what it held before is shifted out. *)
Lemma raw_after_i_8 ln dat j t raw :
  0 <= j <= 3 ->
  get_byte j (raw_after_i ln dat t 8 j raw) = shifted_in ln dat t 8 0.
Proof.
  intros Hj. rewrite raw_after_i_same by assumption.
  rewrite shifted_in_acc. unfold wrap_u8.
  change (2 ^ Z.of_nat 8) with (1 * 256).
  rewrite Z.mul_assoc, Z.add_comm, Z.mod_add by lia.
  apply Z.mod_small. apply (shifted_in_range ln dat 8 t).
Qed.

Lemma raw_after_i_range_S ln dat j n t raw :
  in_i32 (raw_after_i ln dat t (S n) j raw).
Proof.
  cbn [raw_after_i]. apply raw_after_i_range. apply set_byte_range.
Qed.

Lemma raw_after_j_O ln dat t raw : raw_after_j ln dat t 0 raw = raw.
Proof. reflexivity. Qed.

Lemma shifted_in_24 ln dat t :
  shifted_in ln dat t 24 0 =
  2 ^ 16 * shifted_in ln dat t 8 0
  + 2 ^ 8 * shifted_in ln dat (t + 24) 8 0
  + shifted_in ln dat (t + 24 + 24) 8 0.
Proof.
  change 24%nat with (8 + (8 + 8))%nat at 1.
  rewrite shifted_in_app, shifted_in_app.
  change (3 * 8)%nat with 24%nat.
  rewrite (shifted_in_acc ln dat 8 (t + 24 + 24)).
  rewrite (shifted_in_acc ln dat 8 (t + 24)).
  change (2 ^ Z.of_nat 8) with (2 ^ 8). lia.
Qed.

(** The three upper bytes of [_raw] receive the 24 levels, the first one
    in the sign bit; the lowest byte is left as it was. *)
Lemma raw_after_transfer ln dat t raw :
  raw_after_j ln dat t 3 raw =
  wrap_i32 (256 * shifted_in ln dat t 24 0 + get_byte 0 raw).
Proof.
  rewrite !raw_after_j_S, raw_after_j_O.
  change (Z.of_nat 3) with 3. change (Z.of_nat 2) with 2.
  change (Z.of_nat 1) with 1.
  set (r1 := raw_after_i ln dat t 8 3 raw).
  set (r2 := raw_after_i ln dat (t + 24) 8 2 r1).
  set (r3 := raw_after_i ln dat (t + 24 + 24) 8 1 r2).
  assert (H3 : get_byte 3 r3 = shifted_in ln dat t 8 0).
  { subst r3 r2. rewrite !raw_after_i_other by lia.
    subst r1. apply raw_after_i_8. lia. }
  assert (H2 : get_byte 2 r3 = shifted_in ln dat (t + 24) 8 0).
  { subst r3. rewrite raw_after_i_other by lia.
    subst r2. apply raw_after_i_8. lia. }
  assert (H1 : get_byte 1 r3 = shifted_in ln dat (t + 24 + 24) 8 0).
  { subst r3. apply raw_after_i_8. lia. }
  assert (H0 : get_byte 0 r3 = get_byte 0 raw).
  { subst r3 r2 r1. rewrite !raw_after_i_other by lia. reflexivity. }
  rewrite (bytes_rebuild r3) by apply raw_after_i_range_S.
  rewrite H0, H1, H2, H3, shifted_in_24. f_equal. lia.
Qed.

(** ** A poll that does a transfer, exactly *)

Lemma recovered_frame o :
  _pinClk (recovered o) = _pinClk o /\
  _pinData (recovered o) = _pinData o /\
  _gain (recovered o) = _gain o /\
  _raw (recovered o) = _raw o /\
  _conversionStartTime (recovered o) = _conversionStartTime o.
Proof. unfold recovered. destruct (status_eqb _ _); repeat split. Qed.

Lemma read_ready_exact m :
  ready m = true ->
  read m =
  Some (fst (settled (transferred m)),
        mkMachine (snd (settled (transferred m))) (board_after_transfer m)).
Proof.
  unfold ready, clk_level, data_level. intros H.
  apply andb_true_iff in H as [Hc Hd].
  apply negb_true_iff in Hc, Hd.
  unfold read. do 2 step. rewrite Hc. do 2 step.
  cbn [tick elapsed lines]. rewrite Hd. step.
  match goal with
  | |- context [mkMachine (self m) ?b] => set (b1 := b)
  end.
  assert (E1 : (if status_eqb (_status (self m)) timedOut
                then assign (set_status init) ;; assign (set_readCount 0)
                else ret tt) (mkMachine (self m) b1)
               = Some (tt, mkMachine (recovered (self m)) b1)).
  { unfold recovered.
    destruct (status_eqb (_status (self m)) timedOut); reflexivity. }
  rewrite (bind_Some _ _ _ _ _ E1). do 2 step.
  destruct (recovered_frame (self m)) as (Fc & Fd & Fg & Fr & Fs).
  rewrite Fs.
  rewrite (bind_Some _ _ _ _ _ (for_j_exact 3 _)).
  rewrite (bind_Some _ _ _ _ _ (switch_gain_exact _)).
  cbn [self board lines clock elapsed history _raw _pinData _pinClk _gain
       set_raw set_timestamp].
  rewrite Fc, Fd, Fg, Fr.
  subst b1. cbn [tick lines clock elapsed history].
  do 4 step.
  cbn [lines clock elapsed history tick].
  replace (2 * extra_pulses (_gain (self m))
           + (24 * 3 + S (S (elapsed (board m)))))%nat
    with (transfer_end m) by (unfold transfer_end; lia).
  replace (S (S (S (elapsed (board m))))) with (elapsed (board m) + 3)%nat
    by lia.
  rewrite app_assoc, pulse_train_app.
  replace (extra_pulses (_gain (self m)) + 8 * 3)%nat
    with (24 + extra_pulses (_gain (self m)))%nat by lia.
  fold (board_after_transfer m).
  match goal with
  | |- context [set_conversionStartTime ?now (set_raw ?r ?o)] =>
      change (set_conversionStartTime now (set_raw r o))
        with (transferred m)
  end.
  unfold settled.
  destruct (_readCount (transferred m) <? _readsUntilValid (transferred m)).
  - do 3 step. cbn [_readCount _readsUntilValid set_readCount].
    destruct (wrap_u8 (_readCount (transferred m) + 1)
              <? _readsUntilValid (transferred m));
      steps; reflexivity.
  - steps. reflexivity.
Qed.

(** ** The raw reading *)

Lemma get_byte_0 x : get_byte 0 x = x mod 256.
Proof.
  unfold get_byte, wrap_u32. change (8 * 0) with 0. rewrite Z.shiftr_0_r.
  change 255 with (Z.ones 8). rewrite Z.land_ones by lia.
  change (2 ^ 32) with (2 ^ 24 * 2 ^ 8).
  rewrite Z.rem_mul_r by lia.
  change (2 ^ 8) with 256. Z.div_mod_to_equations. lia.
Qed.

Lemma wrap_i32_mod_256 z : wrap_i32 z mod 256 = z mod 256.
Proof.
  unfold wrap_i32. Z.div_mod_to_equations. lia.
Qed.

Lemma wrap_i32_scaled s :
  0 <= s < 2 ^ 24 -> wrap_i32 (256 * s) = 256 * signed24 s.
Proof.
  intros Hs. unfold wrap_i32, signed24.
  destruct (Z.ltb_spec s (2 ^ 23)).
  - rewrite Z.mod_small by lia. lia.
  - replace (256 * s + 2 ^ 31) with (256 * s - 2 ^ 31 + 1 * 2 ^ 32) by lia.
    rewrite Z.mod_add by lia. rewrite Z.mod_small by lia. lia.
Qed.

Lemma settled_readings o :
  _raw (snd (settled o)) = _raw o /\
  _timestamp (snd (settled o)) = _timestamp o /\
  _conversionStartTime (snd (settled o)) = _conversionStartTime o.
Proof.
  unfold settled. destruct (_ <? _); [destruct (_ <? _) |];
    repeat split; reflexivity.
Qed.

Lemma sample_range m : 0 <= sample m < 2 ^ 24.
Proof. unfold sample. apply (shifted_in_range _ _ 24). Qed.

Lemma transferred_raw m :
  _raw (transferred m) =
  wrap_i32 (256 * sample m + get_byte 0 (_raw (self m))).
Proof.
  unfold transferred, sample.
  cbn [_raw set_conversionStartTime set_raw].
  apply raw_after_transfer.
Qed.

Lemma transfer_acquires_sample_aux m :
  ready m = true ->
  exists res m',
    read m = Some (res, m') /\
    get_byte 0 (_raw (self m')) = get_byte 0 (_raw (self m)).
Proof.
  intros H. rewrite (read_ready_exact m H). eexists _, _.
  split; [reflexivity |].
  cbn [self]. destruct (settled_readings (transferred m)) as (-> & _).
  rewrite transferred_raw, !get_byte_0, wrap_i32_mod_256.
  rewrite Z.add_comm, Z.mul_comm, Z.mod_add by lia.
  apply Z.mod_mod. lia.
Qed.

(** X1: a poll that does a transfer leaves in [_raw] the 24 levels it
    sampled on the data line, the first in the sign bit, above the lowest
    byte of the previous [_raw], which it does not touch. *)
Theorem transfer_acquires_sample m :
  ready m = true ->
  exists res m',
    read m = Some (res, m') /\
    0 <= sample m < 2 ^ 24 /\
    _raw (self m') =
      wrap_i32 (256 * sample m + get_byte 0 (_raw (self m))) /\
    get_byte 0 (_raw (self m')) = get_byte 0 (_raw (self m)).
Proof.
  intros H. rewrite (read_ready_exact m H). eexists _, _.
  split; [reflexivity |]. split; [apply sample_range |].
  cbn [self]. destruct (settled_readings (transferred m)) as (-> & _).
  rewrite transferred_raw. split; [reflexivity |].
  rewrite !get_byte_0, wrap_i32_mod_256.
  rewrite Z.add_comm, Z.mul_comm, Z.mod_add by lia.
  apply Z.mod_mod. lia.
Qed.

Lemma transfer_acquires_sample_witness :
  exists res m',
    read (SimpleHX711_new 2 3 3 gain32 (sample_board 3 sample_min))
      = Some (res, m') /\
    _raw (self m') = - 2 ^ 31.
Proof.
  destruct (transfer_acquires_sample
              (SimpleHX711_new 2 3 3 gain32 (sample_board 3 sample_min)))
    as (res & m' & E & _ & Hr & _).
  - vm_compute. reflexivity.
  - exists res, m'. split; [exact E |]. rewrite Hr.
    vm_compute. reflexivity.
Defined.

(** X2: when the lowest byte of [_raw] is zero, a poll that does a transfer
    makes [_raw] the sampled 24-bit pattern, read as a two's-complement
    number, times 256. *)
Theorem transfer_sign_extends m :
  ready m = true ->
  _raw (self m) mod 256 = 0 ->
  exists res m',
    read m = Some (res, m') /\
    _raw (self m') = 256 * signed24 (sample m) /\
    - 2 ^ 23 <= signed24 (sample m) < 2 ^ 23.
Proof.
  intros H H0. rewrite (read_ready_exact m H). eexists _, _.
  split; [reflexivity |].
  cbn [self]. destruct (settled_readings (transferred m)) as (-> & _).
  rewrite transferred_raw, get_byte_0, H0, Z.add_0_r.
  pose proof (sample_range m) as Hs.
  split; [apply wrap_i32_scaled; exact Hs |].
  unfold signed24. destruct (Z.ltb_spec (sample m) (2 ^ 23)); lia.
Qed.

Lemma transfer_sign_extends_witness :
  exists res m',
    read (SimpleHX711_new 2 3 3 gain64 (sample_board 3 sample_ones))
      = Some (res, m') /\
    _raw (self m') = 256 * -1.
Proof.
  destruct (transfer_sign_extends
              (SimpleHX711_new 2 3 3 gain64 (sample_board 3 sample_ones)))
    as (res & m' & E & Hr & _).
  - vm_compute. reflexivity.
  - vm_compute. reflexivity.
  - exists res, m'. split; [exact E |]. rewrite Hr.
    vm_compute. reflexivity.
Defined.

(** Whatever the lines show, [read] keeps the lowest byte of [_raw]. *)
Lemma read_low_byte m res m' :
  read m = Some (res, m') ->
  get_byte 0 (_raw (self m')) = get_byte 0 (_raw (self m)).
Proof.
  intros E.
  destruct (clk_level m) eqn:Hc.
  - rewrite (read_poweredDown m Hc) in E. now injection E as _ <-.
  - destruct (data_level m) eqn:Hd.
    + rewrite (read_busy m Hc Hd) in E. cbv zeta in E.
      destruct (500 <=? _); now injection E as _ <-.
    + assert (Hr : ready m = true) by (unfold ready; now rewrite Hc, Hd).
      destruct (transfer_acquires_sample_aux m Hr) as (res' & m'' & E' & H).
      rewrite E' in E. injection E as _ <-. exact H.
Qed.

(** Calls other than [read] leave the readings alone. *)
Lemma perform_readings c m m' :
  perform c m = Some (tt, m') ->
  c <> Read ->
  _raw (self m') = _raw (self m) /\
  _smoothedRaw (self m') = _smoothedRaw (self m) /\
  _timestamp (self m') = _timestamp (self m).
Proof.
  intros E Hc. destruct c; cbn [perform] in E;
    try (injection E as <-; repeat split; reflexivity).
  - contradiction.
  - rewrite adjustTo_eq in E. injection E as <-. repeat split; reflexivity.
  - unfold discard, bind in E. rewrite getAdjusted_eq in E.
    destruct (div32 _ _); [| discriminate E].
    injection E as <-. repeat split; reflexivity.
Qed.

Lemma perform_low_byte c m m' :
  perform c m = Some (tt, m') ->
  get_byte 0 (_raw (self m')) = get_byte 0 (_raw (self m)).
Proof.
  intros E. destruct c;
    try (destruct (perform_readings _ _ _ E ltac:(discriminate)) as (-> & _);
         reflexivity).
  cbn [perform] in E. unfold discard in E.
  destruct (read_total m) as (res & m1 & E1).
  rewrite (bind_Some _ _ _ _ _ E1) in E. injection E as <-.
  exact (read_low_byte _ _ _ E1).
Qed.

(** X3: in every state reached from construction by public calls, [_raw]
    is a multiple of 256: its lowest byte is set to zero by the
    constructor and no member function writes it. *)
Theorem raw_is_multiple_of_256 clk dat ruv g b cs m :
  perform_all cs (SimpleHX711_new clk dat ruv g b) = Some (tt, m) ->
  _raw (self m) mod 256 = 0.
Proof.
  rewrite <- get_byte_0.
  assert (H0 : get_byte 0 (_raw (self (SimpleHX711_new clk dat ruv g b))) = 0)
    by reflexivity.
  revert H0. generalize (SimpleHX711_new clk dat ruv g b) as m0.
  induction cs as [| c cs IH]; intros m0 H0 E.
  - cbn in E. injection E as <-. exact H0.
  - cbn [perform_all] in E. unfold bind in E.
    destruct (perform c m0) as [[[] m1] |] eqn:E1; [| discriminate E].
    apply (IH m1); [| exact E].
    rewrite (perform_low_byte _ _ _ E1). exact H0.
Qed.

Lemma raw_is_multiple_of_256_witness :
  _raw (self after_plain_session) mod 256 = 0.
Proof.
  apply (raw_is_multiple_of_256 2 3 3 gain128 (sample_board 3 sample_10)
           plain_session after_plain_session).
  vm_compute. reflexivity.
Defined.

(** ** What a poll does to the clock line *)

(** X4: a poll that does a transfer pulses the clock line 24 times and
    then once more for gain 128, twice for gain 32, three times for gain
    64; each pulse is a write of HIGH followed by a write of LOW, so the
    line is left low.  A poll that does no transfer writes nothing.  No
    poll writes to another pin. *)
Theorem read_clock_pulses m :
  exists res m',
    read m = Some (res, m') /\
    history (board m') =
      pulse_train (_pinClk (self m))
        (if ready m then 24 + extra_pulses (_gain (self m)) else 0)
      ++ history (board m).
Proof.
  destruct (ready m) eqn:Hr.
  - rewrite (read_ready_exact m Hr). eexists _, _. split; reflexivity.
  - unfold ready in Hr. destruct (clk_level m) eqn:Hc.
    + rewrite (read_poweredDown m Hc). eexists _, _. split; reflexivity.
    + destruct (data_level m) eqn:Hd; [| discriminate Hr].
      rewrite (read_busy m Hc Hd). cbv zeta.
      destruct (500 <=? _); eexists _, _; split; reflexivity.
Qed.

(** ** Time stamps *)

(** X5: a poll that does a transfer makes the timestamp the conversion
    start time it found, and the conversion start time the value of
    [millis] after its last clock pulse. *)
Theorem transfer_timestamps m :
  ready m = true ->
  exists res m',
    read m = Some (res, m') /\
    _timestamp (self m') = _conversionStartTime (self m) /\
    _conversionStartTime (self m') =
      wrap_u32 (clock (board m)
                  (elapsed (board m) + 74
                   + 2 * extra_pulses (_gain (self m)))).
Proof.
  intros H. rewrite (read_ready_exact m H). eexists _, _.
  split; [reflexivity |]. cbn [self].
  destruct (settled_readings (transferred m)) as (_ & -> & ->).
  split; reflexivity.
Qed.

Lemma transfer_timestamps_witness :
  exists res m',
    read (after_first_read quiet_board) = Some (res, m') /\
    _timestamp (self m') = 79 /\
    _conversionStartTime (self m') = 156.
Proof.
  destruct (transfer_timestamps (after_first_read quiet_board))
    as (res & m' & E & Ht & Hc).
  - vm_compute. reflexivity.
  - exists res, m'. split; [exact E |]. rewrite Ht, Hc.
    split; vm_compute; reflexivity.
Defined.

(** ** Busy polls *)

(** X6: a poll that finds the clock line low and the data line high
    changes nothing but, possibly, the status: when [d] milliseconds have
    passed since the conversion start time, it returns false and leaves
    the object as it is if [d < 500], and returns true with status
    timedOut if [d >= 500].  The difference is taken modulo [2^32], so the
    answer is right also when [millis] has wrapped in between. *)
Theorem read_busy_elapsed m d :
  clk_level m = false ->
  data_level m = true ->
  in_u32 (_conversionStartTime (self m)) ->
  0 <= d < 2 ^ 32 ->
  wrap_u32 (clock (board m) (S (S (elapsed (board m)))))
    = wrap_u32 (_conversionStartTime (self m) + d) ->
  exists m',
    read m = Some (500 <=? d, m') /\
    self m' = (if 500 <=? d then set_status timedOut (self m) else self m) /\
    history (board m') = history (board m).
Proof.
  intros Hc Hd Hs Hr Hnow. rewrite (read_busy m Hc Hd). cbv zeta.
  assert (E : subu32 (wrap_u32 (clock (board m) (S (S (elapsed (board m))))))
                     (_conversionStartTime (self m)) = d).
  { rewrite Hnow. unfold subu32, wrap_u32, in_u32 in *.
    rewrite Zminus_mod_idemp_l.
    replace (_conversionStartTime (self m) + d
             - _conversionStartTime (self m)) with d by lia.
    apply Z.mod_small. lia. }
  rewrite E. destruct (500 <=? d); eexists; repeat split; reflexivity.
Qed.

Lemma read_busy_elapsed_witness :
  _conversionStartTime (self (SimpleHX711_new 2 3 3 gain128 wrapping_board))
    = 2 ^ 32 - 600 /\
  exists m',
    read (SimpleHX711_new 2 3 3 gain128 wrapping_board) = Some (true, m') /\
    _status (self m') = timedOut.
Proof.
  split; [vm_compute; reflexivity |].
  destruct (read_busy_elapsed
              (SimpleHX711_new 2 3 3 gain128 wrapping_board) 600)
    as (m' & E & Hs & _).
  - vm_compute. reflexivity.
  - vm_compute. reflexivity.
  - vm_compute. split; [discriminate | reflexivity].
  - lia.
  - vm_compute. reflexivity.
  - exists m'. split; [exact E |]. rewrite Hs. reflexivity.
Defined.

(** ** Result and status *)


(** ** The filter *)

Lemma quot_256_toward_zero d :
  (0 <= d -> 0 <= 256 * Z.quot d 256 <= d) /\
  (d <= 0 -> d <= 256 * Z.quot d 256 <= 0) /\
  (- 256 < d < 256 -> Z.quot d 256 = 0).
Proof.
  pose proof (Z.quot_rem' d 256) as E.
  split; [| split]; intros H.
  - pose proof (Z.rem_bound_pos d 256 H ltac:(lia)).
    pose proof (Z.quot_pos d 256 H ltac:(lia)). lia.
  - pose proof (Z.rem_bound_pos_neg d 256 ltac:(lia) H). lia.
  - apply Z.quot_small_iff; lia.
Qed.

(** X8: in steady state, when [raw - smoothed] does not overflow, the
    smoothing step moves the smoothed reading toward the raw reading just
    acquired and never past it; a raw reading less than 256 away leaves it
    where it is. *)
Theorem smoothing_stays_between m :
  ready m = true ->
  _status (self m) <> timedOut ->
  _readsUntilValid (self m) <= _readCount (self m) ->
  in_u8 (_alpha (self m)) ->
  in_i32 (_smoothedRaw (self m)) ->
  exists m',
    read m = Some (true, m') /\
    let raw := _raw (self m') in
    let old := _smoothedRaw (self m) in
    let new := _smoothedRaw (self m') in
    in_i32 (raw - old) ->
    (old <= raw -> old <= new <= raw) /\
    (raw <= old -> raw <= new <= old) /\
    (- 256 < raw - old < 256 -> new = old).
Proof.
  intros H Hs Hc Ha Hold. rewrite (read_ready_exact m H).
  unfold transferred. rewrite recovered_not_timedOut by assumption.
  rewrite settled_steady by (members; lia).
  eexists. split; [reflexivity |]. cbn [fst snd self]. members.
  set (raw := raw_after_j _ _ _ _ _).
  assert (Hraw : in_i32 raw) by (apply raw_after_i_range_S).
  intros Hd.
  destruct (quot_256_toward_zero (raw - _smoothedRaw (self m)))
    as (Hp & Hn & Hz).
  set (q := Z.quot (raw - _smoothedRaw (self m)) 256) in *.
  assert (Hqa : (0 <= q -> 0 <= q * _alpha (self m) <= 256 * q) /\
                (q <= 0 -> 256 * q <= q * _alpha (self m) <= 0))
    by (unfold in_u8 in Ha; split; intros; nia).
  destruct Hqa as [Hqp Hqn].
  assert (Hx : smoothing raw (_smoothedRaw (self m)) (_alpha (self m))
               = _smoothedRaw (self m)
                 + q * _alpha (self m)).
  { apply smoothing_exact; [assumption .. |].
    unfold in_i32 in *.
    destruct (Z_le_gt_dec 0 (raw - _smoothedRaw (self m))) as [Hge | Hlt].
    - specialize (Hp Hge). lia.
    - specialize (Hn ltac:(lia)). lia. }
  rewrite Hx. split; [| split]; intros Ho.
  - specialize (Hp ltac:(lia)). lia.
  - specialize (Hn ltac:(lia)). lia.
  - rewrite (Hz Ho). lia.
Qed.

Lemma smoothing_stays_between_witness :
  exists m',
    read steady_machine = Some (true, m') /\
    0 <= _smoothedRaw (self m') <= _raw (self m').
Proof.
  destruct (smoothing_stays_between steady_machine) as (m' & E & H).
  - vm_compute. reflexivity.
  - vm_compute. discriminate.
  - vm_compute. discriminate.
  - vm_compute. split; [discriminate | reflexivity].
  - vm_compute. split; [discriminate | reflexivity].
  - assert (Hraw : _raw (self m') = 2560).
    { vm_compute in E. injection E as <-. reflexivity. }
    exists m'. split; [exact E |].
    cbv zeta in H. rewrite Hraw in *.
    apply H.
    + vm_compute. split; [discriminate | reflexivity].
    + vm_compute. discriminate.
Defined.

(** ** Calibration, composed *)

Lemma sub32_diag x : sub32 x x = 0.
Proof. unfold sub32. rewrite Z.sub_diag. reflexivity. Qed.

Lemma quot32_0_l a : quot32 0 a = 0.
Proof. now destruct a. Qed.

(** X9: right after [tare], the tared reading of the same kind (raw or
    smoothed) is 0, and so is the adjusted reading when the adjuster is not
    zero. *)
Theorem tare_zeroes_reading m smoothed :
  exists m1,
    tare smoothed m = Some (tt, m1) /\
    getRawMinusTare smoothed m1 = Some (0, m1) /\
    (_adjuster (self m) <> 0 -> getAdjusted smoothed m1 = Some (0, m1)).
Proof.
  eexists. split; [reflexivity |]. split.
  - unfold getRawMinusTare, member. cbn [self].
    destruct smoothed; members; rewrite sub32_diag; reflexivity.
  - intros Ha. rewrite getAdjusted_eq. unfold reading, div32.
    cbn [self]. apply Z.eqb_neq in Ha.
    destruct smoothed; members; rewrite Ha, sub32_diag, quot32_0_l;
      reflexivity.
Qed.

Lemma tare_zeroes_reading_witness :
  exists m1,
    tare true loaded_machine = Some (tt, m1) /\
    _tare (self m1) = 2000 /\
    getAdjusted true m1 = Some (0, m1).
Proof.
  destruct (tare_zeroes_reading loaded_machine true) as (m1 & E & _ & H).
  exists m1. split; [exact E |]. split.
  - vm_compute in E. injection E as <-. reflexivity.
  - apply H. vm_compute. discriminate.
Defined.

(** X10: calibration round trip.  When the target is a non-zero
    [int32_t] that divides the tared reading, the quotient is a non-zero
    [int32_t] and the tared reading does not overflow, [adjustTo] stores
    that quotient and [getAdjusted] right after it returns the target. *)
Theorem adjustTo_then_getAdjusted m value smoothed q :
  value <> 0 ->
  in_i32 value ->
  in_i32 (reading smoothed (self m) - _tare (self m)) ->
  reading smoothed (self m) - _tare (self m) = value * q ->
  q <> 0 ->
  in_i32 q ->
  exists m1,
    adjustTo value smoothed m = Some (tt, m1) /\
    _adjuster (self m1) = q /\
    getAdjusted smoothed m1 = Some (value, m1).
Proof.
  intros Hv0 Hv Hd E Hq Hqr. rewrite adjustTo_eq. eexists.
  split; [reflexivity |].
  apply Z.eqb_neq in Hv0 as Hvb. rewrite Hvb.
  assert (Hadj : quot32 (sub32 (reading smoothed (self m)) (_tare (self m)))
                   value = q).
  { unfold quot32, sub32. rewrite (wrap_i32_id _ Hd), E.
    rewrite Z.mul_comm, Z.quot_mul by assumption.
    apply wrap_i32_id. exact Hqr. }
  rewrite Hadj. split; [reflexivity |].
  rewrite getAdjusted_eq. unfold reading in *. unfold div32.
  cbn [self]. apply Z.eqb_neq in Hq as Hqb.
  destruct smoothed; members; rewrite Hqb; unfold quot32, sub32;
    rewrite (wrap_i32_id _ Hd), E, Z.quot_mul by assumption;
    rewrite (wrap_i32_id _ Hv); reflexivity.
Qed.

Lemma adjustTo_then_getAdjusted_witness :
  exists m1,
    adjustTo 40 false loaded_machine = Some (tt, m1) /\
    _adjuster (self m1) = 64 /\
    getAdjusted false m1 = Some (40, m1).
Proof.
  apply (adjustTo_then_getAdjusted loaded_machine 40 false 64).
  - discriminate.
  - vm_compute. split; [discriminate | reflexivity].
  - vm_compute. split; [discriminate | reflexivity].
  - vm_compute. reflexivity.
  - discriminate.
  - vm_compute. split; [discriminate | reflexivity].
Defined.

(** X11: [adjustTo] guards its own division only.  When the tared reading
    is smaller in magnitude than the target (taken as 1 if it is 0), for
    instance when the reading equals the tare, it stores the adjuster 0,
    and the next [getAdjusted] divides by zero. *)
Theorem adjustTo_can_zero_the_adjuster m value smoothed :
  Z.abs (sub32 (reading smoothed (self m)) (_tare (self m)))
    < Z.abs (if value =? 0 then 1 else value) ->
  exists m1,
    adjustTo value smoothed m = Some (tt, m1) /\
    _adjuster (self m1) = 0 /\
    forall s, getAdjusted s m1 = None.
Proof.
  intros H. rewrite adjustTo_eq. eexists. split; [reflexivity |].
  assert (Hnz : (if value =? 0 then 1 else value) <> 0)
    by (destruct (Z.eqb_spec value 0); lia).
  assert (Hq : quot32 (sub32 (reading smoothed (self m)) (_tare (self m)))
                 (if value =? 0 then 1 else value) = 0).
  { unfold quot32. rewrite (proj2 (Z.quot_small_iff _ _ Hnz) H).
    reflexivity. }
  rewrite Hq. split; [reflexivity |].
  intros s. rewrite getAdjusted_eq. reflexivity.
Qed.

Lemma adjustTo_can_zero_the_adjuster_witness :
  exists m1,
    adjustTo 100 false (SimpleHX711_new 2 3 3 gain128 quiet_board)
      = Some (tt, m1) /\
    getAdjusted false m1 = None.
Proof.
  destruct (adjustTo_can_zero_the_adjuster
              (SimpleHX711_new 2 3 3 gain128 quiet_board) 100 false)
    as (m1 & E & _ & H).
  - vm_compute. reflexivity.
  - exists m1. split; [exact E | apply H].
Defined.

(** ** Power up *)

(** X12: [powerUp] writes LOW to the clock line, sets the status to init,
    the counter to 0 and the conversion start time to the value of
    [millis], and touches nothing else.  Afterwards a run of polls that
    ends with status valid contains at least readsUntilValid polls that did
    a transfer. *)
Theorem powerUp_restarts_settling m n :
  exists m1 m2,
    powerUp m = Some (tt, m1) /\
    self m1 =
      set_conversionStartTime
        (wrap_u32 (clock (board m) (S (elapsed (board m)))))
        (set_readCount 0 (set_status init (self m))) /\
    history (board m1) =
      DigitalWrite (_pinClk (self m)) LOW :: history (board m) /\
    polls n m1 = Some m2 /\
    (_status (self m2) = valid ->
     _readsUntilValid (self m) <= Z.of_nat (transfers n m1)).
Proof.
  set (m1 := mkMachine
               (set_conversionStartTime
                  (wrap_u32 (clock (board m) (S (elapsed (board m)))))
                  (set_readCount 0 (set_status init (self m))))
               (tick (emit (DigitalWrite (_pinClk (self m)) LOW) (board m)))).
  assert (H : still_settling 0 (self m1)).
  { unfold still_settling. cbn.
    destruct (Z_lt_le_dec 0 (_readsUntilValid (self m))); [left | right].
    - repeat split; try lia. discriminate.
    - assumption. }
  destruct (polls_still_settling n 0 m1 H) as (m2 & E & H2 & H3).
  exists m1, m2. split; [reflexivity |]. split; [reflexivity |].
  split; [reflexivity |]. split; [exact E |].
  intros Hv. destruct H2 as [(Hs & _) | Hk]; [contradiction |].
  rewrite H3 in Hk. cbn in Hk. lia.
Qed.

Lemma powerUp_restarts_settling_witness :
  exists m1 m2,
    powerUp after_settled_session = Some (tt, m1) /\
    polls 3 m1 = Some m2 /\
    _status (self m2) = valid /\
    3 <= Z.of_nat (transfers 3 m1).
Proof.
  destruct (powerUp_restarts_settling after_settled_session 3)
    as (m1 & m2 & E1 & Ho & _ & E2 & H).
  assert (Hv : _status (self m2) = valid).
  { vm_compute in E1. injection E1 as <-.
    vm_compute in E2. injection E2 as <-. reflexivity. }
  exists m1, m2. split; [exact E1 |]. split; [exact E2 |].
  split; [exact Hv |]. exact (H Hv).
Defined.

(** ** Polls and the configuration *)

Lemma settled_configuration o :
  let o' := snd (settled o) in
  _pinClk o' = _pinClk o /\ _pinData o' = _pinData o /\
  _gain o' = _gain o /\ _tare o' = _tare o /\ _alpha o' = _alpha o /\
  _adjuster o' = _adjuster o /\ _readsUntilValid o' = _readsUntilValid o.
Proof.
  unfold settled. destruct (_ <? _); [destruct (_ <? _) |];
    cbn; repeat split; reflexivity.
Qed.

Lemma read_configuration m res m' :
  read m = Some (res, m') ->
  _pinClk (self m') = _pinClk (self m) /\
  _pinData (self m') = _pinData (self m) /\
  _gain (self m') = _gain (self m) /\
  _tare (self m') = _tare (self m) /\
  _alpha (self m') = _alpha (self m) /\
  _adjuster (self m') = _adjuster (self m) /\
  _readsUntilValid (self m') = _readsUntilValid (self m).
Proof.
  intros E.
  destruct (clk_level m) eqn:Hc.
  - rewrite (read_poweredDown m Hc) in E. injection E as _ <-.
    cbn. repeat split; reflexivity.
  - destruct (data_level m) eqn:Hd.
    + rewrite (read_busy m Hc Hd) in E. cbv zeta in E.
      destruct (500 <=? _); injection E as _ <-; cbn;
        repeat split; reflexivity.
    + assert (Hr : ready m = true) by (unfold ready; now rewrite Hc, Hd).
      rewrite (read_ready_exact m Hr) in E. injection E as _ <-.
      cbn [self].
      destruct (settled_configuration (transferred m))
        as (-> & -> & -> & -> & -> & -> & ->).
      unfold transferred, recovered.
      destruct (status_eqb _ _); cbn; repeat split; reflexivity.
Qed.

(** X14: a poll never changes the configuration or the calibration: the
    pins, the gain, alpha, the tare, the adjuster and the threshold are
    after [read] what they were before, whatever the lines show. *)
Theorem read_keeps_configuration m :
  exists res m',
    read m = Some (res, m') /\
    _pinClk (self m') = _pinClk (self m) /\
    _pinData (self m') = _pinData (self m) /\
    _gain (self m') = _gain (self m) /\
    _tare (self m') = _tare (self m) /\
    _alpha (self m') = _alpha (self m) /\
    _adjuster (self m') = _adjuster (self m) /\
    _readsUntilValid (self m') = _readsUntilValid (self m).
Proof.
  destruct (read_total m) as (res & m' & E).
  exists res, m'. split; [exact E |]. exact (read_configuration _ _ _ E).
Qed.

(** ** Status valid means settled *)

Lemma settled_valid_is_settled o :
  valid_is_settled o -> valid_is_settled (snd (settled o)).
Proof.
  unfold valid_is_settled, settled. intros [Hb Hv].
  destruct (Z.ltb_spec (_readCount o) (_readsUntilValid o)) as [Hlt | Hge].
  - pose proof (wrap_u8_le (_readCount o + 1) ltac:(lia)) as Hw.
    cbn [_readCount _readsUntilValid set_readCount].
    destruct (Z.ltb_spec (wrap_u8 (_readCount o + 1)) (_readsUntilValid o));
      cbn [snd]; members; (split; [lia |]); intros Hs.
    + specialize (Hv Hs). lia.
    + lia.
  - cbn [snd]. members. split; lia.
Qed.

Lemma read_valid_is_settled m res m' :
  read m = Some (res, m') ->
  valid_is_settled (self m) -> valid_is_settled (self m').
Proof.
  intros E H.
  destruct (clk_level m) eqn:Hc.
  - rewrite (read_poweredDown m Hc) in E. injection E as _ <-.
    destruct H as [Hb _]. split; [exact Hb | discriminate].
  - destruct (data_level m) eqn:Hd.
    + rewrite (read_busy m Hc Hd) in E. cbv zeta in E.
      destruct (500 <=? _); injection E as _ <-; [| exact H].
      destruct H as [Hb _]. split; [exact Hb | discriminate].
    + assert (Hr : ready m = true) by (unfold ready; now rewrite Hc, Hd).
      rewrite (read_ready_exact m Hr) in E. injection E as _ <-.
      cbn [self]. apply settled_valid_is_settled.
      unfold transferred, valid_is_settled, recovered in *. members.
      destruct H as [Hb Hv].
      destruct (_status (self m)) eqn:Es; cbn [status_eqb]; members;
        rewrite ?Es; (split; [lia |]); try discriminate; exact Hv.
Qed.

Lemma perform_valid_is_settled c m m' :
  perform c m = Some (tt, m') ->
  match c with SetReadsUntilValid _ => False | _ => True end ->
  valid_is_settled (self m) -> valid_is_settled (self m').
Proof.
  intros E G H. destruct c; cbn [perform] in E; try contradiction;
    try (injection E as <-; exact H).
  - unfold discard in E. destruct (read_total m) as (res & m1 & E1).
    rewrite (bind_Some _ _ _ _ _ E1) in E. injection E as <-.
    exact (read_valid_is_settled _ _ _ E1 H).
  - injection E as <-. destruct H as [Hb _].
    unfold valid_is_settled. members. split; [lia | discriminate].
  - rewrite adjustTo_eq in E. injection E as <-. exact H.
  - unfold discard, bind in E. rewrite getAdjusted_eq in E.
    destruct (div32 _ _); [| discriminate E]. injection E as <-. exact H.
  - injection E as <-. destruct H as [Hb _].
    unfold valid_is_settled. members. split; [lia | discriminate].
Qed.

(** X13: as long as no call changes the threshold, in every state reached
    from construction the counter is within the threshold and the status
    is valid only with the counter at the threshold. *)
Theorem valid_only_when_settled clk dat ruv g b cs m :
  0 <= ruv ->
  threshold_untouched cs = true ->
  perform_all cs (SimpleHX711_new clk dat ruv g b) = Some (tt, m) ->
  0 <= _readCount (self m) <= _readsUntilValid (self m) /\
  (_status (self m) = valid ->
   _readCount (self m) = _readsUntilValid (self m)) /\
  _readsUntilValid (self m) = ruv.
Proof.
  intros Hruv.
  assert (H0 : valid_is_settled (self (SimpleHX711_new clk dat ruv g b)) /\
               _readsUntilValid (self (SimpleHX711_new clk dat ruv g b)) = ruv).
  { split; [| reflexivity]. split; cbn; [lia | discriminate]. }
  revert H0. generalize (SimpleHX711_new clk dat ruv g b) as m0.
  induction cs as [| c cs IH]; intros m0 [H0 Hr] Hk E.
  - cbn in E. injection E as <-. destruct H0. auto.
  - cbn [threshold_untouched forallb] in Hk. cbn [perform_all] in E.
    apply andb_true_iff in Hk as [Hc Hk].
    unfold bind in E. destruct (perform c m0) as [[[] m1] |] eqn:E1;
      [| discriminate E].
    apply (IH m1); [| exact Hk | exact E]. split.
    + apply (perform_valid_is_settled c m0 m1 E1); [| exact H0].
      destruct c; try exact I. discriminate Hc.
    + rewrite <- Hr. clear - E1 Hc.
      destruct c; cbn [perform] in E1; try discriminate Hc;
        try (injection E1 as <-; reflexivity).
      * unfold discard in E1. destruct (read_total m0) as (res & m2 & E2).
        rewrite (bind_Some _ _ _ _ _ E2) in E1. injection E1 as <-.
        apply (read_configuration _ _ _ E2).
      * rewrite adjustTo_eq in E1. injection E1 as <-. reflexivity.
      * unfold discard, bind in E1. rewrite getAdjusted_eq in E1.
        destruct (div32 _ _); [| discriminate E1].
        injection E1 as <-. reflexivity.
Qed.

Lemma valid_only_when_settled_witness :
  _status (self after_settled_session) = valid /\
  _readCount (self after_settled_session) = 3.
Proof.
  split; [vm_compute; reflexivity |].
  destruct (valid_only_when_settled 2 3 3 gain128 quiet_board
              settled_session after_settled_session) as (_ & H & Hr).
  - lia.
  - vm_compute. reflexivity.
  - vm_compute. reflexivity.
  - rewrite <- Hr. apply H. vm_compute. reflexivity.
Defined.

(** ** What the other calls leave alone *)

(** X15: no call but [read] changes the raw reading, the smoothed reading
    or the timestamp, and the only call that can fail is [getAdjusted]
    with an adjuster of 0. *)
Theorem calls_keep_readings c m :
  match perform c m with
  | Some (_, m') =>
      c <> Read ->
      _raw (self m') = _raw (self m) /\
      _smoothedRaw (self m') = _smoothedRaw (self m) /\
      _timestamp (self m') = _timestamp (self m)
  | None => exists s, c = GetAdjusted s /\ _adjuster (self m) = 0
  end.
Proof.
  destruct c; cbn [perform];
    try (intros _; repeat split; reflexivity).
  - unfold discard. destruct (read_total m) as (res & m1 & E1).
    rewrite (bind_Some _ _ _ _ _ E1). intros H. now contradiction H.
  - rewrite adjustTo_eq. intros _. repeat split; reflexivity.
  - unfold discard, bind. rewrite getAdjusted_eq. unfold div32.
    destruct (Z.eqb_spec (_adjuster (self m)) 0) as [H0 | H0].
    + exists smoothed. split; [reflexivity | exact H0].
    + intros _. repeat split; reflexivity.
Qed.

Lemma calls_keep_readings_witness :
  exists m',
    perform (Tare true) loaded_machine = Some (tt, m') /\
    _raw (self m') = 2560 /\ _smoothedRaw (self m') = 2000.
Proof.
  pose proof (calls_keep_readings (Tare true) loaded_machine) as H.
  destruct (perform (Tare true) loaded_machine) as [[[] m'] |] eqn:E.
  - exists m'. split; [reflexivity |].
    destruct (H ltac:(discriminate)) as (-> & -> & _).
    split; vm_compute; reflexivity.
  - destruct H as (s & Hc & _). discriminate Hc.
Defined.

(** ** Settling, for any threshold *)

Lemma poll_results_settling k : forall m,
  _status (self m) = init ->
  0 <= _readCount (self m) ->
  _readCount (self m) + Z.of_nat (S k) = _readsUntilValid (self m) ->
  _readsUntilValid (self m) < 256 ->
  ready_for (S k) m = true ->
  poll_results (S k) m = repeat (false, init) k ++ [(true, valid)] /\
  exists m',
    polls (S k) m = Some m' /\ _smoothedRaw (self m') = _raw (self m').
Proof.
  induction k as [| k IH]; intros m Hs H0 Hk Hu Hr;
    apply ready_for_S in Hr as [Hr Hnext];
    destruct (read_ready _ Hr) as (r & now & b' & _ & _ & E);
    rewrite recovered_not_timedOut in E by (rewrite Hs; discriminate).
  - rewrite settled_reaching in E by (members; lia). cbn [fst snd] in E.
    cbn [poll_results polls repeat app]. rewrite E. cbn [self].
    split; [reflexivity |]. eexists. split; reflexivity.
  - rewrite settled_below in E by (members; lia). cbn [fst snd] in E.
    specialize (Hnext _ _ E).
    apply IH in Hnext; [| members; try assumption; lia ..].
    destruct Hnext as (Hres & m' & E' & Hsm).
    change (poll_results (S (S k)) m)
      with (match read m with
            | Some (res, m1) =>
                (res, _status (self m1)) :: poll_results (S k) m1
            | None => []
            end).
    change (polls (S (S k)) m)
      with (match read m with
            | Some (_, m1) => polls (S k) m1
            | None => None
            end).
    rewrite E, Hres. cbn [self]. members. rewrite Hs.
    split; [reflexivity |]. exists m'. split; assumption.
Qed.

(** X16: a fresh instance with a threshold [n] between 1 and 255 that
    finds the chip ready on each poll returns false with status init on
    the first [n - 1] polls and true with status valid on the [n]-th,
    which seeds the smoothed reading with the raw one. *)
Theorem settling_for_any_threshold clk dat g b k :
  Z.of_nat (S k) < 256 ->
  ready_for (S k) (SimpleHX711_new clk dat (Z.of_nat (S k)) g b) = true ->
  poll_results (S k) (SimpleHX711_new clk dat (Z.of_nat (S k)) g b)
    = repeat (false, init) k ++ [(true, valid)] /\
  exists m',
    polls (S k) (SimpleHX711_new clk dat (Z.of_nat (S k)) g b) = Some m' /\
    _smoothedRaw (self m') = _raw (self m').
Proof.
  intros Hk Hr. apply poll_results_settling.
  - reflexivity.
  - cbn [SimpleHX711_new self _readCount]. lia.
  - cbn [SimpleHX711_new self _readCount _readsUntilValid]. lia.
  - cbn [SimpleHX711_new self _readsUntilValid]. exact Hk.
  - exact Hr.
Qed.

Lemma settling_for_any_threshold_witness :
  poll_results 5 (SimpleHX711_new 2 3 5 gain32 quiet_board)
  = [(false, init); (false, init); (false, init); (false, init);
     (true, valid)].
Proof.
  apply (settling_for_any_threshold 2 3 gain32 quiet_board 4).
  - vm_compute. reflexivity.
  - vm_compute. reflexivity.
Defined.
